(** * Lingo AI backend (app.py): session store and conversation memory

    A shallow embedding of the Flask backend in [app.py]: the two classes
    [SimpleAITutor] and [SimpleTTS], the process-wide [user_sessions]
    dictionary and the handlers that work on it, followed by the properties
    of the conversation memory, the session store and the text cleaner.

    Python values are modelled as follows.
    - [str] is a list of Unicode code points ([N]); [len], slicing and the
      regular expressions of the source count code points.
    - a float ([time.time()]) is a binary64 [PrimFloat.float].
    - an object that is mutated through a reference (a session entry) lives
      in a heap of locations; [user_sessions] maps identifiers to locations.
    - what the process reads from outside (environment variables, the clock,
      [uuid4], the two HTTP providers) is gathered in a [world] record that
      every handler receives; what it writes ([print], requests sent to the
      providers) is logged in the state. *)

From Stdlib Require Import ZArith NArith List String Ascii.
From Stdlib Require Import Floats.PrimFloat.
From stdpp Require Import gmap strings list fin_maps.

Abbreviation str := (list N).

(** ** Python built-ins used by the source *)

Module Py.

(** A string literal of the source (ASCII only). *)
Definition lit (s : string) : str :=
  (fun a => N_of_ascii a) <$> list_ascii_of_string s.

Definition newline : N := 10%N.
Definition space : N := 32%N.

(** [str.isspace] for one code point: the whitespace set used by
    [str.split()] and [str.strip()] without arguments. *)
Definition isspace (c : N) : bool :=
  ((9 <=? c) && (c <=? 13) || (28 <=? c) && (c <=? 32)
   || (c =? 133) || (c =? 160) || (c =? 5760)
   || (8192 <=? c) && (c <=? 8202)
   || (c =? 8232) || (c =? 8233) || (c =? 8239) || (c =? 8287)
   || (c =? 12288))%N.

Fixpoint lstrip (s : str) : str :=
  match s with
  | [] => []
  | c :: s' => if isspace c then lstrip s' else s
  end.

Fixpoint rstrip (s : str) : str :=
  match s with
  | [] => []
  | c :: s' =>
      match rstrip s' with
      | [] => if isspace c then [] else [c]
      | r => c :: r
      end
  end.

(** [s.strip()] *)
Definition strip (s : str) : str := rstrip (lstrip s).

(** [s.split()]: the maximal runs of non-whitespace characters, in order.
    [cur] is the run being read. *)
Fixpoint split_from (cur : str) (s : str) : list str :=
  match s with
  | [] => match cur with [] => [] | _ => [cur] end
  | c :: s' =>
      if isspace c
      then match cur with
           | [] => split_from [] s'
           | _ => cur :: split_from [] s'
           end
      else split_from (cur ++ [c]) s'
  end.

Definition split (s : str) : list str := split_from [] s.

(** [sep.join(ws)] *)
Fixpoint join (sep : str) (ws : list str) : str :=
  match ws with
  | [] => []
  | [w] => w
  | w :: ws' => w ++ sep ++ join sep ws'
  end.

(** [l[-k:]] for a positive constant [k]. *)
Definition last_n {A} (k : nat) (l : list A) : list A :=
  drop (length l - k) l.

(** [not s] for an optional string: [None] and [''] are falsy. *)
Definition falsy (o : option str) : bool :=
  match o with
  | None | Some [] => true
  | Some _ => false
  end.

(** [str(n)] for a non-negative integer. *)
Fixpoint digits (d : Decimal.uint) : str :=
  match d with
  | Decimal.Nil => []
  | Decimal.D0 d => 48%N :: digits d
  | Decimal.D1 d => 49%N :: digits d
  | Decimal.D2 d => 50%N :: digits d
  | Decimal.D3 d => 51%N :: digits d
  | Decimal.D4 d => 52%N :: digits d
  | Decimal.D5 d => 53%N :: digits d
  | Decimal.D6 d => 54%N :: digits d
  | Decimal.D7 d => 55%N :: digits d
  | Decimal.D8 d => 56%N :: digits d
  | Decimal.D9 d => 57%N :: digits d
  end.

Definition str_of_nat (n : nat) : str := digits (Nat.to_uint n).

(** A Python value: a string, a non-negative integer or [None]. *)
Inductive value :=
| Str (s : str)
| Int (n : nat)
| None_.

(** [f"{v}"] *)
Definition format (v : value) : str :=
  match v with
  | Str s => s
  | Int n => str_of_nat n
  | None_ => lit "None"
  end.

(** [base64.b64encode(bs).decode('utf-8')] on a list of octets. *)
Definition b64char (n : N) : N :=
  (if n <? 26 then 65 + n
   else if n <? 52 then 97 + (n - 26)
   else if n <? 62 then 48 + (n - 52)
   else if n =? 62 then 43 else 47)%N.

Fixpoint b64encode (bs : list N) : str :=
  match bs with
  | [] => []
  | [a] =>
      [b64char (a / 4); b64char ((a mod 4) * 16); 61; 61]%N
  | [a; b] =>
      [b64char (a / 4); b64char ((a mod 4) * 16 + b / 16);
       b64char ((b mod 16) * 4); 61]%N
  | a :: b :: c :: rest =>
      [b64char (a / 4); b64char ((a mod 4) * 16 + b / 16);
       b64char ((b mod 16) * 4 + c / 64); b64char (c mod 64)]%N
      ++ b64encode rest
  end.

(** The outcome of a call that may raise: [Raise e] carries [str(e)]. *)
Inductive result (A : Type) :=
| Return (a : A)
| Raise (e : str).
Arguments Return {A} a.
Arguments Raise {A} e.

End Py.

(** ** The [re] module, for the patterns of [clean_text]

    A backtracking matcher with the priorities of Python's [re]: a greedy
    repetition tries one more iteration first, a lazy one tries the rest of
    the pattern first; the first alternative that lets the whole pattern
    match wins. *)

Module Re.

Inductive regex :=
| Chr (c : N)                       (* an escaped or plain literal character *)
| Any                               (* [.]: any character except a newline *)
| Seq (r1 r2 : regex)
| Repeat (lo hi : nat) (r : regex)  (* greedy [r{lo,hi}] *)
| LazyStar (r : regex)              (* [r*?] *)
| Group (r : regex).                (* [(r)], capture group 1 *)

(** The two repetition loops, over the matcher [step] of the repeated
    expression and the continuation [k] of the repetition. *)
Section Loops.

Context {R : Type}.
Variable step : str -> option str -> (str -> option str -> option R)
                -> option R.
Variable k : str -> option str -> option R.

(** Greedy [{lo,hi}]: one more iteration first, then the continuation
    (allowed once [lo] iterations are done). *)
Fixpoint greedy (lo hi : nat) (s : str) (g : option str) : option R :=
  match hi with
  | O => if lo =? 0 then k s g else None
  | S hi' =>
      match step s g (greedy (pred lo) hi') with
      | Some x => Some x
      | None => if lo =? 0 then k s g else None
      end
  end.

(** Lazy [*?]: the continuation first, then one more iteration. [fuel]
    bounds the number of iterations. *)
Fixpoint lazy (fuel : nat) (s : str) (g : option str) : option R :=
  match k s g with
  | Some x => Some x
  | None =>
      match fuel with
      | O => None
      | S fuel' => step s g (lazy fuel')
      end
  end.

End Loops.

(** [run r s g k]: match [r] at the head of [s] with group 1 bound to [g],
    then continue with [k] on the rest; [None] when every alternative
    fails. *)
Fixpoint run {R} (r : regex) (s : str) (g : option str)
    (k : str -> option str -> option R) : option R :=
  match r with
  | Chr c =>
      match s with
      | x :: s' => if (x =? c)%N then k s' g else None
      | [] => None
      end
  | Any =>
      match s with
      | x :: s' => if (x =? Py.newline)%N then None else k s' g
      | [] => None
      end
  | Seq r1 r2 => run r1 s g (fun s' g' => run r2 s' g' k)
  | Repeat lo hi r1 => greedy (fun s g k => run r1 s g k) k lo hi s g
  | LazyStar r1 => lazy (fun s g k => run r1 s g k) k (length s) s g
  | Group r1 =>
      run r1 s g
        (fun s' g' => k s' (Some (take (length s - length s') s)))
  end.

(** A match of [r] at the head of [s]: the text after the match and the
    text of group 1. *)
Definition match_at (r : regex) (s : str) : option (str * option str) :=
  run r s None (fun s' g => Some (s', g)).

(** One step of the scan for a character that starts no match. *)
Definition copy_char (rest : str -> str) (s : str) : str :=
  match s with
  | [] => []
  | c :: s' => c :: rest s'
  end.

(** [re.sub]: scan from the left; replace each match and resume after it;
    after an empty match copy one character. [fuel] bounds the number of
    scan steps. *)
Fixpoint sub_from (fuel : nat) (r : regex) (repl : option str -> str)
    (s : str) : str :=
  match fuel with
  | O => s
  | S fuel' =>
      match match_at r s with
      | Some (s', g) =>
          if length s' <? length s
          then repl g ++ sub_from fuel' r repl s'
          else repl g ++ copy_char (sub_from fuel' r repl) s
      | None => copy_char (sub_from fuel' r repl) s
      end
  end.

Definition sub (r : regex) (repl : option str -> str) (s : str) : str :=
  sub_from (S (length s)) r repl s.

(** The replacement templates [r'\1'] and ['']. *)
Definition group1 (g : option str) : str := default [] g.
Definition nothing (g : option str) : str := [].

End Re.

(** ** What the process reads and writes *)

(** Lines 90 to 118 of [get_response], up to the extraction of the
    content.
    - [NotCalled e]: [from groq import Groq] or [Groq(api_key=...)] raised;
      [create] was not called and nothing was sent.
    - [Failed e]: [client.chat.completions.create(...)] was called and it,
      or [completion.choices[0].message.content], raised (transport,
      status, missing choice).
    - [Completed content]: the content, which the SDK types as an optional
      string. *)
Inductive completion :=
| Completed (content : Py.value)
| Failed (e : str)
| NotCalled (e : str).

(** [requests.post(url, headers=..., json={"text": text})] *)
Inductive http_reply :=
| Response (status_code : nat) (content : list N) (body : str)
| PostFailed (e : str).

Record world := {
  GROQ_API_KEY : option str;
  DEEPGRAM_API_KEY : option str;
  time_time : float;
  uuid4 : str;
  groq_create : list (str * str) -> completion;
  requests_post : str -> str -> http_reply;
}.

Inductive provider_call :=
| GroqCall (messages : list (str * str))
| DeepgramCall (url text : str).

Record io := {
  stdout : list str;
  calls : list provider_call;
}.

Definition print (line : str) (o : io) : io :=
  {| stdout := stdout o ++ [line]; calls := calls o |}.

Definition call (c : provider_call) (o : io) : io :=
  {| stdout := stdout o; calls := calls o ++ [c] |}.

(** ** class SimpleAITutor *)

Module SimpleAITutor.

(** One element of [self.memory]: [{'user': ..., 'ai': ...}]. *)
Record exchange := { user : str; ai : Py.value }.

Record t := {
  groq_api_key : option str;
  language : str;
  proficiency : str;
  memory : list exchange;
}.

Definition set_memory (m : list exchange) (self : t) : t :=
  {| groq_api_key := groq_api_key self;
     language := language self;
     proficiency := proficiency self;
     memory := m |}.

(** [__init__] *)
Definition init (w : world) (language proficiency : str) : Py.result t :=
  if Py.falsy (GROQ_API_KEY w)
  then Py.Raise (Py.lit "GROQ_API_KEY not found in environment variables")
  else Py.Return {| groq_api_key := GROQ_API_KEY w;
                    language := language;
                    proficiency := proficiency;
                    memory := [] |}.

Definition start_of_conversation : str :=
  Py.lit "This is the start of the conversation.".

(** The two lines that one exchange adds to the context. *)
Definition render (e : exchange) : str :=
  ([Py.newline] ++ Py.lit "User: " ++ user e)
  ++ ([Py.newline] ++ Py.lit "AI: " ++ Py.format (ai e)).

(** [get_memory_context] *)
Definition get_memory_context (self : t) : str :=
  match memory self with
  | [] => start_of_conversation
  | _ =>
      foldl (fun context exchange => context ++ render exchange)
        [] (Py.last_n 3 (memory self))
  end.

(** [get_system_prompt] *)
Definition get_system_prompt (self : t) : str :=
  Py.join [Py.newline] [
    Py.lit "You are Lingo AI, a friendly AI language tutor for "
      ++ language self ++ Py.lit " at " ++ proficiency self
      ++ Py.lit " level.";
    [];
    Py.lit "Your role:";
    Py.lit "1. Help users learn " ++ language self;
    Py.lit "2. Correct grammar and vocabulary errors gently";
    Py.lit "3. Provide explanations for language rules";
    Py.lit "4. Have natural conversations";
    Py.lit "5. Adapt to the user's proficiency level ("
      ++ proficiency self ++ Py.lit ")";
    [];
    Py.lit "Guidelines:";
    Py.lit "- Keep responses concise (max 3-4 sentences)";
    Py.lit "- Use simple language for beginners, more complex for advanced";
    Py.lit "- Always provide translations when introducing new words";
    Py.lit "- Give examples to illustrate points";
    Py.lit "- Be encouraging and positive";
    [];
    Py.lit "Current conversation context: " ++ get_memory_context self
  ].

(** [add_to_memory]: append, then keep the last 10 when longer. *)
Definition add_to_memory (self : t) (user_message : str)
    (ai_response : Py.value) : t :=
  let appended :=
    memory self ++ [ {| user := user_message; ai := ai_response |} ] in
  if 10 <? length appended
  then set_memory (Py.last_n 10 appended) self
  else set_memory appended self.

(** [clear_memory] *)
Definition clear_memory (self : t) : t := set_memory [] self.

(** The [except Exception as e] branch of [get_response]. *)
Definition fallback (e : str) : str :=
  Py.lit "I'm having trouble responding. Please try again. (Error: "
  ++ e ++ Py.lit ")".

Definition on_exception (e : str) (self : t) (o : io) : str * t * io :=
  (fallback e, self, print (Py.lit "Error calling Groq API: " ++ e) o).

(** The [messages] list of [get_response]: role and content. *)
Definition messages (self : t) (user_message : str) : list (str * str) :=
  [ (Py.lit "system", get_system_prompt self);
    (Py.lit "user", user_message) ].

(** [get_response]: the whole body is inside [try]; the memory is written
    after the content has been extracted and before it is stripped. The
    request is logged when [create] is called, so not when the import or
    the client constructor raised. *)
Definition get_response (w : world) (self : t) (user_message : str)
    (o : io) : str * t * io :=
  let sent := call (GroqCall (messages self user_message)) o in
  match groq_create w (messages self user_message) with
  | NotCalled e => on_exception e self o
  | Completed (Py.Str ai_response) =>
      (Py.strip ai_response,
       add_to_memory self user_message (Py.Str ai_response), sent)
  | Completed (Py.Int n) =>
      on_exception (Py.lit "'int' object has no attribute 'strip'")
        (add_to_memory self user_message (Py.Int n)) sent
  | Completed Py.None_ =>
      on_exception (Py.lit "'NoneType' object has no attribute 'strip'")
        (add_to_memory self user_message Py.None_) sent
  | Failed e => on_exception e self sent
  end.

End SimpleAITutor.

(** ** class SimpleTTS *)

Module SimpleTTS.

Record t := {
  api_key : option str;
  language : str;
}.

(** [__init__] *)
Definition init (w : world) (language : str) (o : io) : t * io :=
  ({| api_key := DEEPGRAM_API_KEY w; language := language |},
   if Py.falsy (DEEPGRAM_API_KEY w)
   then print
          (Py.lit "Warning: DEEPGRAM_API_KEY not set. TTS will be disabled.")
          o
   else o).

Definition star : N := 42%N.
Definition underscore : N := 95%N.
Definition lbracket : N := 91%N.
Definition rbracket : N := 93%N.
Definition lparen : N := 40%N.
Definition rparen : N := 41%N.
Definition backtick : N := 96%N.

(** [r'\*{1,2}(.*?)\*{1,2}'] and [r'_{1,2}(.*?)_{1,2}'] *)
Definition emphasis (c : N) : Re.regex :=
  Re.Seq (Re.Repeat 1 2 (Re.Chr c))
    (Re.Seq (Re.Group (Re.LazyStar Re.Any)) (Re.Repeat 1 2 (Re.Chr c))).

(** [r'\[.*?\]\(.*?\)'] *)
Definition link : Re.regex :=
  Re.Seq (Re.Chr lbracket)
    (Re.Seq (Re.LazyStar Re.Any)
       (Re.Seq (Re.Chr rbracket)
          (Re.Seq (Re.Chr lparen)
             (Re.Seq (Re.LazyStar Re.Any) (Re.Chr rparen))))).

(** [r'`.*?`'] *)
Definition code : Re.regex :=
  Re.Seq (Re.Chr backtick) (Re.Seq (Re.LazyStar Re.Any) (Re.Chr backtick)).

(** [clean_text] *)
Definition clean_text (text : str) : str :=
  let clean_text := Re.sub (emphasis star) Re.group1 text in
  let clean_text := Re.sub (emphasis underscore) Re.group1 clean_text in
  let clean_text := Re.sub link Re.nothing clean_text in
  let clean_text := Re.sub code Re.nothing clean_text in
  let clean_text := Py.join [Py.space] (Py.split clean_text) in
  let clean_text :=
    if 500 <? length clean_text
    then take 497 clean_text ++ Py.lit "..."
    else clean_text in
  Py.strip clean_text.

(** [models.get(self.language, "aura-asteria-en")] *)
Definition model_for (language : str) : str :=
  if decide (language = Py.lit "English") then Py.lit "aura-asteria-en"
  else if decide (language = Py.lit "Spanish") then Py.lit "aura-2-estrella-es"
  else if decide (language = Py.lit "French") then Py.lit "aura-athena-fr"
  else if decide (language = Py.lit "German") then Py.lit "aura-orion-de"
  else Py.lit "aura-asteria-en".

(** [text_to_speech] *)
Definition text_to_speech (w : world) (self : t) (text : str) (o : io)
    : option str * io :=
  if Py.falsy (api_key self) || Py.falsy (Some (Py.strip text))
  then (None, o)
  else
    let url :=
      Py.lit "https://api.deepgram.com/v1/speak?model="
      ++ model_for (language self) in
    let cleaned := clean_text text in
    let o := call (DeepgramCall url cleaned) o in
    match requests_post w url cleaned with
    | Response status_code content body =>
        if status_code =? 200
        then (Some (Py.b64encode content), o)
        else (None,
              print (Py.lit "TTS Error " ++ Py.str_of_nat status_code
                     ++ Py.lit ": " ++ body) o)
    | PostFailed e => (None, print (Py.lit "TTS Error: " ++ e) o)
    end.

End SimpleTTS.

(** ** The session store and the handlers *)

(** A value of [user_sessions]: the dictionary with the keys ['ai_tutor'],
    ['tts'] and ['created_at']. The tutor and the TTS object are reachable
    through this dictionary only, so they are stored in it. *)
Record session_data := {
  ai_tutor : SimpleAITutor.t;
  tts : SimpleTTS.t;
  created_at : float;
}.

Definition set_ai_tutor (a : SimpleAITutor.t) (d : session_data)
    : session_data :=
  {| ai_tutor := a; tts := tts d; created_at := created_at d |}.

Abbreviation loc := positive.

Record state := {
  heap : gmap loc session_data;
  user_sessions : gmap str loc;
  out : io;
}.

Definition initial_state : state :=
  {| heap := ∅; user_sessions := ∅;
     out := {| stdout := []; calls := [] |} |}.

(** [get_or_create_session]: returns the reference stored under
    [session_id]. The dictionary literal is evaluated before the store is
    written, so a raising constructor leaves the store as it was. *)
Definition get_or_create_session (w : world) (st : state)
    (session_id language proficiency : str) : Py.result loc * state :=
  match user_sessions st !! session_id with
  | Some l => (Py.Return l, st)
  | None =>
      match SimpleAITutor.init w language proficiency with
      | Py.Raise e => (Py.Raise e, st)
      | Py.Return tutor =>
          let '(speech, o) := SimpleTTS.init w language (out st) in
          let l := fresh (dom (heap st)) in
          (Py.Return l,
           {| heap :=
                <[l := {| ai_tutor := tutor; tts := speech;
                          created_at := time_time w |}]> (heap st);
              user_sessions := <[session_id := l]> (user_sessions st);
              out := o |})
      end
  end.

(** The JSON body of a request to [/api/chat]; [None] is an absent key. *)
Record chat_data := {
  message : option str;
  session_id : option str;
  language : option str;
  proficiency : option str;
  use_voice : bool;
}.

(** [jsonify(...)] with its status code. *)
Inductive response :=
| ChatReply (session_id bot_response : str) (audio_data : option str)
    (language proficiency : str)
| Message (message : str)
| Error (status : nat) (error : str).

(** [chat] *)
Definition chat (w : world) (st : state) (data : chat_data)
    : response * state :=
  let user_message := Py.strip (default [] (message data)) in
  let language := default (Py.lit "English") (language data) in
  let proficiency := default (Py.lit "beginner") (proficiency data) in
  match user_message with
  | [] => (Error 400 (Py.lit "No message provided"), st)
  | _ =>
      let session_id :=
        if Py.falsy (session_id data) then uuid4 w
        else default [] (session_id data) in
      match get_or_create_session w st session_id language proficiency with
      | (Py.Raise e, st1) => (Error 500 e, st1)
      | (Py.Return l, st1) =>
          match heap st1 !! l with
          | None =>
              (* a reference without an object: excluded by [store_wf] *)
              (Error 500 (Py.lit "KeyError"), st1)
          | Some d =>
              let '(bot_response, tutor, o) :=
                SimpleAITutor.get_response w (ai_tutor d) user_message
                  (out st1) in
              let '(audio_data, o) :=
                if use_voice data
                   && negb (Py.falsy (SimpleTTS.api_key (tts d)))
                then SimpleTTS.text_to_speech w (tts d) bot_response o
                else (None, o) in
              (ChatReply session_id bot_response audio_data language
                 proficiency,
               {| heap := <[l := set_ai_tutor tutor d]> (heap st1);
                  user_sessions := user_sessions st1;
                  out := o |})
          end
      end
  end.

(** [new_session]; only its effect on the store is modelled, the body of
    the reply is built from the request alone. *)
Definition new_session (w : world) (st : state) (language proficiency : str)
    : Py.result str * state :=
  match SimpleAITutor.init w language proficiency with
  | Py.Raise e => (Py.Raise e, st)
  | Py.Return tutor =>
      let '(speech, o) := SimpleTTS.init w language (out st) in
      let l := fresh (dom (heap st)) in
      (Py.Return (uuid4 w),
       {| heap :=
            <[l := {| ai_tutor := tutor; tts := speech;
                      created_at := time_time w |}]> (heap st);
          user_sessions := <[uuid4 w := l]> (user_sessions st);
          out := o |})
  end.

(** [reset_session]; [session_id] is [data.get('session_id')]. *)
Definition reset_session (st : state) (session_id : option str)
    : response * state :=
  match session_id ≫= (fun k => user_sessions st !! k) with
  | Some l =>
      (Message (Py.lit "Conversation reset successfully"),
       {| heap :=
            alter (fun d =>
                     set_ai_tutor (SimpleAITutor.clear_memory (ai_tutor d)) d)
              l (heap st);
          user_sessions := user_sessions st;
          out := out st |})
  | None => (Error 404 (Py.lit "Session not found"), st)
  end.

(** [current_time - session_data['created_at'] > 7200] *)
Definition older_than_2_hours (current_time : float) (d : session_data)
    : bool :=
  PrimFloat.ltb 7200%float (PrimFloat.sub current_time (created_at d)).

Definition expired (st : state) (current_time : float) (l : loc) : bool :=
  match heap st !! l with
  | Some d => older_than_2_hours current_time d
  | None => false
  end.

(** The first loop of [cleanup_old_sessions]. *)
Definition old_sessions (st : state) (current_time : float) : list str :=
  foldl
    (fun old item =>
       if expired st current_time item.2 then old ++ [item.1] else old)
    [] (map_to_list (user_sessions st)).

(** [cleanup_old_sessions]: the function has no [return] statement, so
    the caller receives [None]. *)
Definition cleanup_old_sessions (w : world) (st : state)
    : Py.value * state :=
  let current_time := time_time w in
  let old := old_sessions st current_time in
  let sessions :=
    foldl (fun sessions session_id => delete session_id sessions)
      (user_sessions st) old in
  let o :=
    match old with
    | [] => out st
    | _ =>
        print (Py.lit "Cleaned up " ++ Py.str_of_nat (length old)
               ++ Py.lit " old sessions") (out st)
    end in
  (Py.None_, {| heap := heap st; user_sessions := sessions; out := o |}).

(** Every reference held by [user_sessions] points to an object. *)
Definition store_wf (st : state) : Prop :=
  forall session_id l,
    user_sessions st !! session_id = Some l -> is_Some (heap st !! l).

(** ** Definitions used by the statements *)

(** The tutor after a sequence of [add_to_memory] calls. *)
Definition add_all (self : SimpleAITutor.t) (turns : list (str * Py.value))
    : SimpleAITutor.t :=
  foldl (fun acc turn => SimpleAITutor.add_to_memory acc turn.1 turn.2)
    self turns.

Definition record_of (turn : str * Py.value) : SimpleAITutor.exchange :=
  {| SimpleAITutor.user := turn.1; SimpleAITutor.ai := turn.2 |}.

(** *** Concrete inputs used below *)

Definition example_tutor : SimpleAITutor.t :=
  {| SimpleAITutor.groq_api_key := Some (Py.lit "gsk_test");
     SimpleAITutor.language := Py.lit "Spanish";
     SimpleAITutor.proficiency := Py.lit "beginner";
     SimpleAITutor.memory := [] |}.

(** Twelve turns, numbered 0 to 11. *)
Definition example_turns : list (str * Py.value) :=
  (fun n => (Py.lit "question " ++ Py.str_of_nat n,
             Py.Str (Py.lit "answer " ++ Py.str_of_nat n))) <$> seq 0 12.

(** A tutor that has had four exchanges. *)
Definition example_tutor_4 : SimpleAITutor.t :=
  add_all example_tutor (take 4 example_turns).

(** A world whose completion provider is unreachable. *)
Definition offline_world : world :=
  {| GROQ_API_KEY := Some (Py.lit "gsk_test");
     DEEPGRAM_API_KEY := None;
     time_time := 10000%float;
     uuid4 := Py.lit "0b8e2f0c-5c8e-4c6e-9d59-3f1a6f0f7a11";
     groq_create := fun _ => Failed (Py.lit "Connection error.");
     requests_post := fun _ _ => PostFailed (Py.lit "Connection error.") |}.

Definition no_output : io := {| stdout := []; calls := [] |}.

(** A world at time 1000 whose providers answer. *)
Definition online_world : world :=
  {| GROQ_API_KEY := Some (Py.lit "gsk_test");
     DEEPGRAM_API_KEY := Some (Py.lit "dg_test");
     time_time := 1000%float;
     uuid4 := Py.lit "5f0c1a52-7d0b-4c58-8a4e-2b9d0c1e6a77";
     groq_create := fun _ => Completed (Py.Str (Py.lit " Hola! Que tal? "));
     requests_post := fun _ _ => Response 200 [77; 97; 110]%N [] |}.

(** The same world at time 9000. *)
Definition later_world : world :=
  {| GROQ_API_KEY := GROQ_API_KEY online_world;
     DEEPGRAM_API_KEY := DEEPGRAM_API_KEY online_world;
     time_time := 9000%float;
     uuid4 := Py.lit "c2a4e1d0-93b7-4f7e-b1c3-8e5d7a9f0b21";
     groq_create := groq_create online_world;
     requests_post := requests_post online_world |}.

Definition hola (session : str) : chat_data :=
  {| message := Some (Py.lit "Hola");
     session_id := Some session;
     language := Some (Py.lit "Spanish");
     proficiency := Some (Py.lit "beginner");
     use_voice := false |}.

(** A turn whose message is made of whitespace only. *)
Definition blank (session : str) : chat_data :=
  {| message := Some [32; 9; 10; 160]%N;
     session_id := Some session;
     language := Some (Py.lit "Spanish");
     proficiency := Some (Py.lit "beginner");
     use_voice := true |}.

(** One turn on session "s1" at time 1000. *)
Definition state_1 : state :=
  (chat online_world initial_state (hola (Py.lit "s1"))).2.

(** Then one turn on session "s2" at time 9000. *)
Definition state_2 : state :=
  (chat later_world state_1 (hola (Py.lit "s2"))).2.

(** *** The shape of a cleaned text *)

(** The characters that start a match of one of the four patterns. *)
Definition is_markup (c : N) : bool :=
  ((c =? SimpleTTS.star) || (c =? SimpleTTS.underscore)
   || (c =? SimpleTTS.lbracket) || (c =? SimpleTTS.backtick))%N.

Definition markup_free (s : str) : bool :=
  forallb (fun c => negb (is_markup c)) s.

(** [normal_from b s]: [s] continues a text made of words separated by
    single U+0020 spaces, with no other whitespace, and ends with a word;
    [b] tells whether the previous character belongs to a word. *)
Fixpoint normal_from (b : bool) (s : str) : bool :=
  match s with
  | [] => b
  | c :: s' =>
      if (c =? Py.space)%N then b && normal_from false s'
      else if Py.isspace c then false
      else normal_from true s'
  end.

Definition nospace (w : str) : Prop :=
  Forall (fun c => Py.isspace c = false) w.

(** A text with emphasis, a link and code, longer than 500 characters once
    cleaned. *)
Definition long_text : str :=
  Py.lit "**Hola**,  _amigo_ [docs](http://x.y) `code` "
  ++ concat (replicate 200 (Py.lit "muy  bien ")).

(** *** The passes of [clean_text], named *)

(** The four [re.sub] calls. *)
Definition remove_markup (text : str) : str :=
  Re.sub SimpleTTS.code Re.nothing
    (Re.sub SimpleTTS.link Re.nothing
       (Re.sub (SimpleTTS.emphasis SimpleTTS.underscore) Re.group1
          (Re.sub (SimpleTTS.emphasis SimpleTTS.star) Re.group1 text))).

(** [' '.join(s.split())] *)
Definition normalise (s : str) : str := Py.join [Py.space] (Py.split s).

(** The length limit. *)
Definition truncate (s : str) : str :=
  if 500 <? length s then take 497 s ++ Py.lit "..." else s.

(** [c] does not occur in [s]. *)
Definition lacks (c : N) (s : str) : bool :=
  forallb (fun x => negb (x =? c)%N) s.

(** [s] can be the text between two markers [c]: it has no [c], and no
    newline, which [.] does not read. *)
Definition span_text (c : N) (s : str) : bool :=
  lacks c s && lacks Py.newline s.

(** *** The values that [chat] reads from its request *)

Definition chat_message (data : chat_data) : str :=
  Py.strip (default [] (message data)).

Definition chat_session_id (w : world) (data : chat_data) : str :=
  if Py.falsy (session_id data) then uuid4 w
  else default [] (session_id data).

Definition chat_language (data : chat_data) : str :=
  default (Py.lit "English") (language data).

Definition chat_proficiency (data : chat_data) : str :=
  default (Py.lit "beginner") (proficiency data).

(** The tutor that serves the turn, as it is before the turn: the one of
    the session when the identifier is in the store, else the one that
    [SimpleAITutor(language, proficiency)] builds. *)
Definition serving_tutor (w : world) (st : state) (data : chat_data)
    : option SimpleAITutor.t :=
  match user_sessions st !! chat_session_id w data with
  | Some l => ai_tutor <$> heap st !! l
  | None =>
      match
        SimpleAITutor.init w (chat_language data) (chat_proficiency data)
      with
      | Py.Return tutor => Some tutor
      | Py.Raise _ => None
      end
  end.

(** *** Invariants of the store *)

(** Two identifiers never share an object. *)
Definition store_inj (st : state) : Prop :=
  forall k1 k2 l,
    user_sessions st !! k1 = Some l -> user_sessions st !! k2 = Some l ->
    k1 = k2.

Definition store_ok (st : state) : Prop := store_wf st /\ store_inj st.

(** No memory is longer than 10 records. *)
Definition memory_bounded (st : state) : Prop :=
  forall l d,
    heap st !! l = Some d ->
    length (SimpleAITutor.memory (ai_tutor d)) <= 10.

(** *** The tables of [text_to_speech] and [get_languages] *)

(** The [models] dictionary of [text_to_speech]. *)
Definition models : list (str * str) :=
  [ (Py.lit "English", Py.lit "aura-asteria-en");
    (Py.lit "Spanish", Py.lit "aura-2-estrella-es");
    (Py.lit "French", Py.lit "aura-athena-fr");
    (Py.lit "German", Py.lit "aura-orion-de") ].

(** [dict.get(key, default)] on a dictionary given as its items. *)
Fixpoint dict_get (items : list (str * str)) (key default : str) : str :=
  match items with
  | [] => default
  | (k, v) :: items' =>
      if decide (k = key) then v else dict_get items' key default
  end.

(** One entry of the list that [get_languages] returns. *)
Record language_entry := {
  code : str;
  name : str;
  tts_supported : bool;
}.

(** [get_languages] *)
Definition get_languages : list language_entry :=
  [ {| code := Py.lit "en"; name := Py.lit "English"; tts_supported := true |};
    {| code := Py.lit "es"; name := Py.lit "Spanish"; tts_supported := true |};
    {| code := Py.lit "fr"; name := Py.lit "French"; tts_supported := true |};
    {| code := Py.lit "de"; name := Py.lit "German"; tts_supported := true |};
    {| code := Py.lit "it"; name := Py.lit "Italian";
       tts_supported := false |};
    {| code := Py.lit "jp"; name := Py.lit "Japanese";
       tts_supported := false |};
    {| code := Py.lit "zh"; name := Py.lit "Chinese";
       tts_supported := false |};
    {| code := Py.lit "ko"; name := Py.lit "Korean";
       tts_supported := false |} ].

(** *** The route [/api/session/new] *)

Module NewSession.

(** The JSON body of the request; [None] is an absent key. *)
Record data := {
  language : option str;
  proficiency : option str;
}.

(** [jsonify(...)] with its status code. *)
Inductive reply :=
| Started (session_id welcome_message language proficiency message : str)
| Error (status : nat) (error : str).

Definition welcome (language proficiency : str) : str :=
  Py.lit "Hello! I'm your " ++ language
  ++ Py.lit " tutor. I'll help you practice at the " ++ proficiency
  ++ Py.lit " level. What would you like to learn today?".

(** The handler: the store is written by [new_session]. *)
Definition route (w : world) (st : state) (d : data) : reply * state :=
  let language := default (Py.lit "English") (language d) in
  let proficiency := default (Py.lit "beginner") (proficiency d) in
  match new_session w st language proficiency with
  | (Py.Raise e, st') => (Error 500 e, st')
  | (Py.Return session_id, st') =>
      (Started session_id (welcome language proficiency) language
         proficiency (Py.lit "New session started"),
       st')
  end.

End NewSession.

(** *** More concrete inputs *)

(** A world whose completion has no content. *)
Definition silent_world : world :=
  {| GROQ_API_KEY := Some (Py.lit "gsk_test");
     DEEPGRAM_API_KEY := Some (Py.lit "dg_test");
     time_time := 1000%float;
     uuid4 := Py.lit "7a1d3c55-2f4b-4b0e-9c0a-6e2f8d1b4c90";
     groq_create := fun _ => Completed Py.None_;
     requests_post := fun _ _ => Response 503 [] (Py.lit "unavailable") |}.

(** A world without the Groq key. *)
Definition keyless_world : world :=
  {| GROQ_API_KEY := None;
     DEEPGRAM_API_KEY := None;
     time_time := 1000%float;
     uuid4 := Py.lit "19e0a7b2-64c1-4d7f-8f3e-0a5b9c2d7e44";
     groq_create := fun _ => Completed (Py.Str (Py.lit "Hola"));
     requests_post := fun _ _ => PostFailed (Py.lit "Connection error.") |}.

(** A turn on [session] that asks for voice and for another language. *)
Definition bonjour (session : str) : chat_data :=
  {| message := Some (Py.lit " Bonjour ");
     session_id := Some session;
     language := Some (Py.lit "French");
     proficiency := Some (Py.lit "advanced");
     use_voice := true |}.

Import SimpleAITutor.

(** * Properties *)

Lemma last_n_short {A} (k : nat) (l : list A) :
  length l <= k -> Py.last_n k l = l.
Proof.
  intros Hle. unfold Py.last_n.
  replace (length l - k) with 0 by lia. reflexivity.
Qed.

Lemma last_n_length {A} (k : nat) (l : list A) :
  length (Py.last_n k l) = Nat.min (length l) k.
Proof. unfold Py.last_n. rewrite length_drop. lia. Qed.

Lemma last_n_suffix {A} (k : nat) (l : list A) :
  take (length l - k) l ++ Py.last_n k l = l.
Proof. apply take_drop. Qed.

(** Appending to the window and cutting again is cutting once. *)
Lemma last_n_snoc {A} (k : nat) (l : list A) (x : A) :
  0 < k -> Py.last_n k (Py.last_n k l ++ [x]) = Py.last_n k (l ++ [x]).
Proof.
  intros Hk. destruct (decide (length l <= k)) as [Hle|Hgt].
  - now rewrite (last_n_short k l).
  - unfold Py.last_n at 1 3.
    rewrite !length_app, last_n_length. simpl.
    replace (Nat.min (length l) k + 1 - k) with 1 by lia.
    unfold Py.last_n.
    rewrite !drop_app_le by (rewrite ?length_drop; lia).
    rewrite drop_drop. f_equal. f_equal. lia.
Qed.

Lemma add_to_memory_memory (self : t) (u : str) (a : Py.value) :
  memory (add_to_memory self u a)
  = Py.last_n 10 (memory self ++ [ {| user := u; ai := a |} ]).
Proof.
  unfold add_to_memory.
  destruct (10 <? length (memory self ++ [_])) eqn:Hlen; simpl.
  - reflexivity.
  - apply Nat.ltb_ge in Hlen. now rewrite last_n_short.
Qed.

Lemma add_all_memory (self : t) (turns : list (str * Py.value)) :
  length (memory self) <= 10 ->
  memory (add_all self turns)
  = Py.last_n 10 (memory self ++ (record_of <$> turns)).
Proof.
  intros Hle. induction turns as [|turn turns IH] using rev_ind.
  - simpl. rewrite app_nil_r. now rewrite last_n_short.
  - unfold add_all in *. rewrite foldl_app. simpl.
    rewrite add_to_memory_memory, IH, fmap_app, app_assoc.
    now rewrite last_n_snoc by lia.
Qed.

(** C1: starting from an empty memory, after any sequence of N calls to
    [add_to_memory] the memory holds min(N, 10) records, and they are the
    last min(N, 10) appended records in the order of the calls.
    [add_to_memory] is a total function: no call fails. *)
Theorem add_to_memory_keeps_last_10 (self : t)
    (turns : list (str * Py.value)) :
  memory self = [] ->
  length (memory (add_all self turns)) = Nat.min (length turns) 10
  /\ memory (add_all self turns)
     = drop (length turns - Nat.min (length turns) 10) (record_of <$> turns).
Proof.
  intros Hempty.
  rewrite add_all_memory by (rewrite Hempty; simpl; lia).
  rewrite Hempty. simpl. split.
  - now rewrite last_n_length, length_fmap.
  - unfold Py.last_n. rewrite length_fmap. f_equal. lia.
Qed.

(** Eleven turns on one tutor: ten records are kept, the first exchange
    is gone and the context shows the last three. *)
Example eleven_turns :
  let self := add_all example_tutor (take 11 example_turns) in
  length (memory self) = 10
  /\ hd_error (memory self)
     = Some {| user := Py.lit "question 1";
               ai := Py.Str (Py.lit "answer 1") |}
  /\ get_memory_context self
     = [Py.newline] ++ Py.lit "User: question 8"
       ++ [Py.newline] ++ Py.lit "AI: answer 8"
       ++ [Py.newline] ++ Py.lit "User: question 9"
       ++ [Py.newline] ++ Py.lit "AI: answer 9"
       ++ [Py.newline] ++ Py.lit "User: question 10"
       ++ [Py.newline] ++ Py.lit "AI: answer 10".
Proof. vm_compute. repeat split. Qed.

Lemma add_to_memory_keeps_last_10_witness :
  memory example_tutor = []
  /\ length (memory (add_all example_tutor example_turns)) = 10
  /\ memory (add_all example_tutor example_turns)
     = drop 2 (record_of <$> example_turns).
Proof.
  split; [reflexivity|].
  apply (add_to_memory_keeps_last_10 example_tutor example_turns).
  reflexivity.
Defined.

(** ** Conversation memory: the recent context *)

Lemma foldl_render (context : str) (l : list exchange) :
  foldl (fun context exchange => context ++ render exchange) context l
  = context ++ concat (render <$> l).
Proof.
  revert context. induction l as [|e l IH]; intros context.
  - simpl. now rewrite app_nil_r.
  - change (foldl (fun context exchange => context ++ render exchange)
              (context ++ render e) l
            = context ++ render e ++ concat (render <$> l)).
    rewrite IH. symmetry. apply app_assoc.
Qed.

Lemma last_n_nonempty {A} (k : nat) (l : list A) :
  0 < k -> l <> [] -> Py.last_n k l <> [].
Proof.
  intros Hk Hl Hnil. apply (f_equal length) in Hnil.
  rewrite last_n_length in Hnil. destruct l; [congruence|].
  cbn [length] in Hnil. lia.
Qed.

Lemma render_text (e : exchange) :
  render e
  = [10%N] ++ Py.lit "User: " ++ user e ++ [10%N] ++ Py.lit "AI: "
    ++ match ai e with
       | Py.Str s => s
       | Py.Int n => Py.str_of_nat n
       | Py.None_ => Py.lit "None"
       end.
Proof.
  unfold render, Py.format, Py.newline. rewrite <- !app_assoc.
  now destruct (ai e).
Qed.

(** C7: [get_memory_context] returns the text of at most 3 records, which
    are the last ones of the memory in the order in which they were stored:
    for each of them, oldest first, a line "User: " with the user message
    and a line "AI: " with the reply, each preceded by a newline, and
    nothing else. For an empty memory it returns the sentence
    "This is the start of the conversation.", which no transcript
    equals. *)
Theorem get_memory_context_last_3 (self : t) :
  let recent := Py.last_n 3 (memory self) in
  length recent <= 3
  /\ length recent = Nat.min (length (memory self)) 3
  /\ memory self = take (length (memory self) - 3) (memory self) ++ recent
  /\ get_memory_context self
     = match memory self with
       | [] => Py.lit "This is the start of the conversation."
       | _ =>
           concat
             ((fun e =>
                 [10%N] ++ Py.lit "User: " ++ user e
                 ++ [10%N] ++ Py.lit "AI: "
                 ++ match ai e with
                    | Py.Str s => s
                    | Py.Int n => Py.str_of_nat n
                    | Py.None_ => Py.lit "None"
                    end) <$> recent)
       end
  /\ match memory self with
     | [] => True
     | _ =>
         get_memory_context self
         <> Py.lit "This is the start of the conversation."
     end.
Proof.
  intros recent. subst recent.
  assert (Hctx : get_memory_context self
                 = match memory self with
                   | [] => start_of_conversation
                   | _ => concat (render <$> Py.last_n 3 (memory self))
                   end).
  { unfold get_memory_context. destruct (memory self); [reflexivity|].
    now rewrite foldl_render. }
  split; [rewrite last_n_length; lia|].
  split; [apply last_n_length|].
  split; [symmetry; apply last_n_suffix|].
  split.
  { rewrite Hctx. destruct (memory self); reflexivity. }
  rewrite Hctx. destruct (memory self) as [|e m] eqn:Hm; [exact I|].
  pose proof (last_n_nonempty 3 (e :: m)) as Hne.
  destruct (Py.last_n 3 (e :: m)) as [|r rs].
  - exfalso. apply Hne; [lia|discriminate|reflexivity].
  - cbn [fmap list_fmap concat]. rewrite render_text. discriminate.
Qed.

(** A memory of four exchanges: the context shows the last three, in the
    order of the turns, and the first exchange does not appear. *)
Lemma get_memory_context_last_3_witness :
  (user <$> memory example_tutor_4)
  = [ Py.lit "question 0"; Py.lit "question 1"; Py.lit "question 2";
      Py.lit "question 3" ]
  /\ get_memory_context example_tutor_4
     = [10%N] ++ Py.lit "User: question 1"
       ++ [10%N] ++ Py.lit "AI: answer 1"
       ++ [10%N] ++ Py.lit "User: question 2"
       ++ [10%N] ++ Py.lit "AI: answer 2"
       ++ [10%N] ++ Py.lit "User: question 3"
       ++ [10%N] ++ Py.lit "AI: answer 3"
  /\ get_memory_context example_tutor
     = Py.lit "This is the start of the conversation.".
Proof.
  split; [vm_compute; reflexivity|].
  destruct (get_memory_context_last_3 example_tutor_4)
    as (_ & _ & _ & Hfour & _).
  destruct (get_memory_context_last_3 example_tutor)
    as (_ & _ & _ & Hnone & _).
  split.
  - rewrite Hfour. vm_compute. reflexivity.
  - rewrite Hnone. reflexivity.
Defined.

(** ** get_response *)

(** The claim of C2 fails: with the provider unreachable the fallback
    sentence is returned but the memory stays empty, whereas writing the
    fallback to the memory would have stored one record. *)
Lemma fallback_not_stored :
  let '(reply, self, _) :=
    get_response offline_world example_tutor (Py.lit "Hola") no_output in
  groq_create offline_world (messages example_tutor (Py.lit "Hola"))
  = Failed (Py.lit "Connection error.")
  /\ reply = fallback (Py.lit "Connection error.")
  /\ memory self = []
  /\ memory self
     <> memory (add_to_memory example_tutor (Py.lit "Hola") (Py.Str reply)).
Proof. vm_compute. repeat split; discriminate. Qed.

(** C2 (amended): when the completion call fails, [get_response] returns
    (it does not raise) the fallback sentence, which embeds the text of the
    failure between "(Error: " and ")"; the memory is not written. *)
Theorem get_response_fallback (w : world) (self : t) (user_message e : str)
    (o : io) :
  groq_create w (messages self user_message) = Failed e ->
  let '(reply, self', _) := get_response w self user_message o in
  reply
  = Py.lit "I'm having trouble responding. Please try again. (Error: "
    ++ e ++ Py.lit ")"
  /\ memory self' = memory self.
Proof.
  intros Hfail. unfold get_response. rewrite Hfail. simpl. split; reflexivity.
Qed.

Lemma get_response_fallback_witness :
  groq_create offline_world (messages example_tutor_4 (Py.lit "Hola"))
  = Failed (Py.lit "Connection error.")
  /\ let '(reply, self', _) :=
       get_response offline_world example_tutor_4 (Py.lit "Hola") no_output in
     reply
     = Py.lit "I'm having trouble responding. Please try again. (Error: "
       ++ Py.lit "Connection error." ++ Py.lit ")"
     /\ memory self' = memory example_tutor_4.
Proof.
  split; [reflexivity|].
  apply (get_response_fallback offline_world example_tutor_4 (Py.lit "Hola")
           (Py.lit "Connection error.") no_output).
  reflexivity.
Defined.

(** C10: the tutor object after [get_response] is the one before it (so
    the memory is exactly the one before the call) when the completion call
    raised, whether [create] raised or was never reached, and the reply is
    then the fallback sentence with the text of the exception; it is the
    one [add_to_memory] gives for the user message and the returned content
    when the call returned: the append happens after a completed call
    only. *)
Theorem get_response_error_keeps_memory (w : world) (self : t)
    (user_message : str) (o : io) :
  let '(reply, self', _) := get_response w self user_message o in
  match groq_create w (messages self user_message) with
  | Failed e | NotCalled e =>
      self' = self
      /\ memory self' = memory self
      /\ reply
         = Py.lit "I'm having trouble responding. Please try again. (Error: "
           ++ e ++ Py.lit ")"
  | Completed content =>
      self' = add_to_memory self user_message content
  end.
Proof.
  unfold get_response.
  destruct (groq_create w (messages self user_message)) as [[s|n|]|e|e];
    simpl; auto.
Qed.

(** A raising call on a tutor with four exchanges: the four are kept. *)
Lemma get_response_error_keeps_memory_witness :
  groq_create offline_world (messages example_tutor_4 (Py.lit "Hola"))
  = Failed (Py.lit "Connection error.")
  /\ let '(reply, self', _) :=
       get_response offline_world example_tutor_4 (Py.lit "Hola") no_output in
     self' = example_tutor_4
     /\ length (memory self') = 4
     /\ reply
        = Py.lit
            "I'm having trouble responding. Please try again. (Error: Connection error.)".
Proof.
  split; [reflexivity|].
  pose proof (get_response_error_keeps_memory offline_world example_tutor_4
                (Py.lit "Hola") no_output) as Hkeep.
  destruct (get_response offline_world example_tutor_4 (Py.lit "Hola")
              no_output) as [[reply self'] o'].
  change (groq_create offline_world (messages example_tutor_4 (Py.lit "Hola")))
    with (Failed (Py.lit "Connection error.")) in Hkeep.
  destruct Hkeep as (Hself & _ & Hreply).
  split; [exact Hself|]. split; [now rewrite Hself|].
  rewrite Hreply. reflexivity.
Defined.

(** ** The session store *)

(** *** Every reference in [user_sessions] has its object *)

Lemma store_wf_initial : store_wf initial_state.
Proof. intros k l Hk. simpl in Hk. now rewrite lookup_empty in Hk. Qed.

Lemma store_wf_alloc (st : state) (k : str) (d : session_data) (o : io) :
  store_wf st ->
  store_wf {| heap := <[fresh (dom (heap st)) := d]> (heap st);
              user_sessions :=
                <[k := fresh (dom (heap st))]> (user_sessions st);
              out := o |}.
Proof.
  intros Hwf k' l'. cbn [heap user_sessions].
  rewrite lookup_insert. destruct (decide (k = k')) as [->|Hne].
  - intros [= <-]. rewrite lookup_insert_eq. now eexists.
  - intros Hl'. apply Hwf in Hl'. rewrite lookup_insert.
    destruct (decide (fresh (dom (heap st)) = l')); [now eexists|exact Hl'].
Qed.

Lemma get_or_create_session_wf (w : world) (st : state)
    (session_id lang prof : str) :
  store_wf st ->
  store_wf (get_or_create_session w st session_id lang prof).2
  /\ forall l,
       (get_or_create_session w st session_id lang prof).1 = Py.Return l ->
       user_sessions (get_or_create_session w st session_id lang prof).2
       !! session_id = Some l.
Proof.
  intros Hwf. unfold get_or_create_session.
  destruct (user_sessions st !! session_id) as [l|] eqn:Hl.
  - split; [exact Hwf|]. now intros l' [= <-].
  - destruct (SimpleAITutor.init w lang prof) as [tutor|e].
    + cbn [SimpleTTS.init fst snd]. split; [now apply store_wf_alloc|].
      intros l' [= <-]. cbn [user_sessions]. apply lookup_insert_eq.
    + split; [exact Hwf|]. discriminate.
Qed.

Lemma new_session_wf (w : world) (st : state) (lang prof : str) :
  store_wf st -> store_wf (new_session w st lang prof).2.
Proof.
  intros Hwf. unfold new_session.
  destruct (SimpleAITutor.init w lang prof) as [tutor|e]; [|exact Hwf].
  cbn [SimpleTTS.init fst snd]. now apply store_wf_alloc.
Qed.

Lemma reset_session_wf (st : state) (session_id : option str) :
  store_wf st -> store_wf (reset_session st session_id).2.
Proof.
  intros Hwf. unfold reset_session.
  destruct (session_id ≫= _) as [l|]; [|exact Hwf].
  intros k l' Hk. cbn [snd heap user_sessions] in *.
  apply Hwf in Hk as [d Hd]. rewrite lookup_alter.
  destruct (decide (l = l')) as [->|]; rewrite Hd; now eexists.
Qed.

Lemma chat_wf (w : world) (st : state) (data : chat_data) :
  store_wf st -> store_wf (chat w st data).2.
Proof.
  intros Hwf. unfold chat.
  destruct (Py.strip _) as [|c user_message]; [exact Hwf|].
  set (sid := if Py.falsy _ then _ else _).
  set (lang := default _ _). set (prof := default _ _).
  destruct (get_or_create_session_wf w st sid lang prof Hwf) as [Hwf' _].
  destruct (get_or_create_session w st sid lang prof) as [[l|e] st1];
    [|exact Hwf'].
  cbn [snd] in Hwf'.
  destruct (heap st1 !! l) as [d|] eqn:Hd; [|exact Hwf'].
  destruct (get_response w (ai_tutor d) (c :: user_message) (out st1))
    as [[bot_response tutor] o].
  destruct (if use_voice data && _ then _ else _) as [audio_data o'].
  intros k l' Hk. cbn [snd heap user_sessions] in *.
  apply Hwf' in Hk. rewrite lookup_insert.
  destruct (decide (l = l')); [now eexists|exact Hk].
Qed.

(** The reference that [chat] receives from [get_or_create_session] has
    its object, so the [KeyError] branch of the model is never taken from a
    well-formed store. *)
Lemma get_or_create_session_allocated (w : world) (st st' : state)
    (session_id lang prof : str) (l : loc) :
  store_wf st ->
  get_or_create_session w st session_id lang prof = (Py.Return l, st') ->
  is_Some (heap st' !! l).
Proof.
  intros Hwf Hget.
  destruct (get_or_create_session_wf w st session_id lang prof Hwf)
    as [Hwf' Hbound].
  rewrite Hget in Hwf', Hbound. cbn [fst snd] in *.
  eapply Hwf', Hbound. reflexivity.
Qed.

(** A session created with one configuration keeps it when it is asked for
    again with another one. *)
Lemma get_or_create_session_created (w w' : world) (st st' : state)
    (session_id lang prof lang' prof' : str) (l : loc) :
  user_sessions st !! session_id = None ->
  get_or_create_session w st session_id lang prof = (Py.Return l, st') ->
  get_or_create_session w' st' session_id lang' prof' = (Py.Return l, st')
  /\ exists d, heap st' !! l = Some d
               /\ language (ai_tutor d) = lang
               /\ proficiency (ai_tutor d) = prof
               /\ memory (ai_tutor d) = []
               /\ created_at d = time_time w.
Proof.
  intros Hnew. unfold get_or_create_session at 1. rewrite Hnew.
  unfold SimpleAITutor.init.
  destruct (Py.falsy (GROQ_API_KEY w)); [discriminate|].
  cbn [SimpleTTS.init]. intros [= <- <-]. split.
  - unfold get_or_create_session. cbn [user_sessions].
    now rewrite lookup_insert_eq.
  - eexists. cbn [heap]. rewrite lookup_insert_eq. repeat split.
Qed.

(** C3: for an identifier that is in the store, [get_or_create_session]
    returns the reference stored under it and leaves the whole state (so
    the entry, its memory and its configuration) as it was, whatever
    language and proficiency are passed; a second call with other arguments
    returns the same reference again. *)
Theorem get_or_create_session_known (w w' : world) (st : state)
    (session_id : str) (l : loc) (lang prof lang' prof' : str) :
  user_sessions st !! session_id = Some l ->
  get_or_create_session w st session_id lang prof = (Py.Return l, st)
  /\ get_or_create_session w'
       (get_or_create_session w st session_id lang prof).2
       session_id lang' prof'
     = (Py.Return l, st).
Proof.
  intros Hknown.
  assert (Hget : forall w0 lang0 prof0,
             get_or_create_session w0 st session_id lang0 prof0
             = (Py.Return l, st)).
  { intros. unfold get_or_create_session. now rewrite Hknown. }
  split; [apply Hget|]. rewrite Hget. apply Hget.
Qed.

Lemma get_or_create_session_known_witness :
  user_sessions state_1 !! Py.lit "s1" = Some 1%positive
  /\ get_or_create_session online_world state_1 (Py.lit "s1")
       (Py.lit "Spanish") (Py.lit "beginner")
     = (Py.Return 1%positive, state_1)
  /\ get_or_create_session later_world
       (get_or_create_session online_world state_1 (Py.lit "s1")
          (Py.lit "Spanish") (Py.lit "beginner")).2
       (Py.lit "s1") (Py.lit "French") (Py.lit "advanced")
     = (Py.Return 1%positive, state_1).
Proof.
  split; [vm_compute; reflexivity|].
  apply (get_or_create_session_known online_world later_world state_1
           (Py.lit "s1") 1%positive).
  vm_compute. reflexivity.
Defined.

(** C5: a turn whose message is empty once stripped is answered with
    status 400 and the error "No message provided", and the state is the
    one before the call: no session is created, no memory is written and
    the log of provider calls is unchanged. *)
Theorem chat_rejects_empty_message (w : world) (st : state)
    (data : chat_data) :
  Py.strip (default [] (message data)) = [] ->
  chat w st data = (Error 400 (Py.lit "No message provided"), st).
Proof. intros Hblank. unfold chat. now rewrite Hblank. Qed.

Lemma chat_rejects_empty_message_witness :
  Py.strip (default [] (message (blank (Py.lit "s1")))) = []
  /\ chat later_world state_1 (blank (Py.lit "s1"))
     = (Error 400 (Py.lit "No message provided"), state_1).
Proof.
  split; [reflexivity|].
  apply (chat_rejects_empty_message later_world state_1 (blank (Py.lit "s1"))).
  reflexivity.
Defined.

(** C6: for an identifier in the store, [reset_session] answers with the
    success message, keeps [user_sessions] (so the identifier and the
    reference under it) and every other object, and the object of the
    session has an empty memory and the language, proficiency, key, TTS
    object and creation time it had. For an identifier that is not in the
    store, or an absent one, it answers 404 "Session not found" and the
    state is unchanged. *)
Theorem reset_session_spec (st : state) (session_id : str) :
  (forall l d,
     user_sessions st !! session_id = Some l ->
     heap st !! l = Some d ->
     exists st' d',
       reset_session st (Some session_id)
       = (Message (Py.lit "Conversation reset successfully"), st')
       /\ user_sessions st' = user_sessions st
       /\ out st' = out st
       /\ (forall l', l' <> l -> heap st' !! l' = heap st !! l')
       /\ heap st' !! l = Some d'
       /\ memory (ai_tutor d') = []
       /\ language (ai_tutor d') = language (ai_tutor d)
       /\ proficiency (ai_tutor d') = proficiency (ai_tutor d)
       /\ groq_api_key (ai_tutor d') = groq_api_key (ai_tutor d)
       /\ tts d' = tts d
       /\ created_at d' = created_at d)
  /\ (user_sessions st !! session_id = None ->
      reset_session st (Some session_id)
      = (Error 404 (Py.lit "Session not found"), st))
  /\ reset_session st None = (Error 404 (Py.lit "Session not found"), st).
Proof.
  split; [|split].
  - intros l d Hknown Hobj. unfold reset_session. simpl. rewrite Hknown.
    eexists _, _. split; [reflexivity|]. simpl.
    split; [reflexivity|]. split; [reflexivity|].
    split; [intros l' Hne; now rewrite lookup_alter_ne|].
    split; [rewrite lookup_alter_eq, Hobj; reflexivity|].
    simpl. repeat split.
  - intros Hunknown. unfold reset_session. simpl. now rewrite Hunknown.
  - reflexivity.
Qed.

Lemma reset_session_spec_witness :
  (exists st' d',
     reset_session state_1 (Some (Py.lit "s1"))
     = (Message (Py.lit "Conversation reset successfully"), st')
     /\ user_sessions st' = user_sessions state_1
     /\ heap st' !! 1%positive = Some d'
     /\ memory (ai_tutor d') = []
     /\ language (ai_tutor d') = Py.lit "Spanish"
     /\ proficiency (ai_tutor d') = Py.lit "beginner")
  /\ reset_session state_1 (Some (Py.lit "s9"))
     = (Error 404 (Py.lit "Session not found"), state_1).
Proof.
  destruct (reset_session_spec state_1 (Py.lit "s1")) as [Hknown _].
  destruct (reset_session_spec state_1 (Py.lit "s9")) as [_ [Hunknown _]].
  split.
  - edestruct (Hknown 1%positive)
      as (st' & d' & Hreset & Hsessions & _ & _ & Hobj & Hmem & Hlang
          & Hprof & _);
      [reflexivity|reflexivity|].
    exists st', d'.
    rewrite Hlang, Hprof. repeat split; assumption.
  - apply Hunknown. reflexivity.
Defined.

(** *** Expiry *)

Lemma foldl_collect {A B} (f : A * B -> bool) (acc : list A)
    (l : list (A * B)) :
  foldl (fun old item => if f item then old ++ [item.1] else old) acc l
  = acc ++ (filter (fun item => f item = true) l).*1.
Proof.
  revert acc. induction l as [|item l IH]; intros acc; simpl.
  - now rewrite app_nil_r.
  - rewrite IH, filter_cons. destruct (f item) eqn:Hf.
    + rewrite decide_True by reflexivity. simpl.
      now rewrite <- app_assoc.
    + rewrite decide_False by discriminate. reflexivity.
Qed.

Lemma old_sessions_filter (st : state) (now : float) :
  old_sessions st now
  = (filter (fun item => expired st now item.2 = true)
       (map_to_list (user_sessions st))).*1.
Proof. unfold old_sessions. now rewrite foldl_collect. Qed.

Lemma elem_of_old_sessions (st : state) (now : float) (session_id : str) :
  session_id ∈ old_sessions st now
  <-> exists l, user_sessions st !! session_id = Some l
                /\ expired st now l = true.
Proof.
  rewrite old_sessions_filter, list_elem_of_fmap. split.
  - intros [[k l] [-> Hin]]. apply list_elem_of_filter in Hin as [Hexp Hin].
    apply elem_of_map_to_list in Hin. now exists l.
  - intros [l [Hl Hexp]]. exists (session_id, l). split; [reflexivity|].
    apply list_elem_of_filter. split; [exact Hexp|].
    now apply elem_of_map_to_list.
Qed.

Lemma NoDup_old_sessions (st : state) (now : float) :
  NoDup (old_sessions st now).
Proof.
  rewrite old_sessions_filter.
  eapply sublist_NoDup; [apply (NoDup_fst_map_to_list (user_sessions st))|].
  apply fmap_sublist, sublist_filter.
Qed.

Lemma lookup_foldl_delete {V} (m : gmap str V) (ks : list str) (k : str) :
  foldl (fun m k => delete k m) m ks !! k
  = if decide (k ∈ ks) then None else m !! k.
Proof.
  revert m. induction ks as [|k' ks IH]; intros m; cbn [foldl].
  - destruct (decide (k ∈ [])) as [Hin|_]; [|reflexivity].
    now apply elem_of_nil in Hin.
  - rewrite IH.
    destruct (decide (k ∈ ks)) as [Hin|Hnin];
      destruct (decide (k ∈ k' :: ks)) as [Hin'|Hnin']; try reflexivity.
    + exfalso. apply Hnin'. now apply list_elem_of_further.
    + apply elem_of_cons in Hin' as [->|Hin']; [|contradiction].
      apply lookup_delete_eq.
    + apply lookup_delete_ne. intros ->. apply Hnin', list_elem_of_here.
Qed.

Lemma size_foldl_delete {V} (m : gmap str V) (ks : list str) :
  NoDup ks -> (forall k, k ∈ ks -> is_Some (m !! k)) ->
  size (foldl (fun m k => delete k m) m ks) = size m - length ks.
Proof.
  revert m. induction ks as [|k ks IH]; intros m Hnd Hin; simpl.
  - lia.
  - apply NoDup_cons in Hnd as [Hk Hnd].
    rewrite IH; [|exact Hnd|].
    + rewrite map_size_delete_Some by apply Hin, list_elem_of_here.
      cbn [length]. lia.
    + intros k' Hk'. rewrite lookup_delete_ne by (intros ->; contradiction).
      apply Hin. now apply list_elem_of_further.
Qed.

Lemma old_sessions_length (st : state) (now : float) :
  length (old_sessions st now)
  = size (user_sessions st)
    - size (foldl (fun m k => delete k m) (user_sessions st)
              (old_sessions st now)).
Proof.
  rewrite size_foldl_delete.
  - assert (length (old_sessions st now) <= size (user_sessions st)); [|lia].
    rewrite old_sessions_filter, length_fmap.
    rewrite <- (length_map_to_list (user_sessions st)).
    apply sublist_length, sublist_filter.
  - apply NoDup_old_sessions.
  - intros k Hk. apply elem_of_old_sessions in Hk as [l [Hl _]]. now exists l.
Qed.

Lemma cleanup_lookup (w : world) (st : state) (session_id : str) :
  user_sessions (cleanup_old_sessions w st).2 !! session_id
  = match user_sessions st !! session_id with
    | Some l => if expired st (time_time w) l then None else Some l
    | None => None
    end.
Proof.
  unfold cleanup_old_sessions. cbn [snd user_sessions].
  rewrite lookup_foldl_delete.
  destruct (decide (session_id ∈ old_sessions st (time_time w)))
    as [Hold|Hkept].
  - apply elem_of_old_sessions in Hold as [l [Hl Hexp]].
    now rewrite Hl, Hexp.
  - destruct (user_sessions st !! session_id) as [l|] eqn:Hl; [|reflexivity].
    destruct (expired st (time_time w) l) eqn:Hexp; [|reflexivity].
    exfalso. apply Hkept, elem_of_old_sessions. now exists l.
Qed.

Lemma old_sessions_after_cleanup (w : world) (st : state) :
  old_sessions (cleanup_old_sessions w st).2 (time_time w) = [].
Proof.
  apply elem_of_nil_inv. intros session_id Hold.
  apply elem_of_old_sessions in Hold as [l [Hl Hexp]].
  rewrite cleanup_lookup in Hl.
  destruct (user_sessions st !! session_id) as [l0|]; [|discriminate].
  destruct (expired st (time_time w) l0) eqn:Hexp0; [discriminate|].
  injection Hl as ->. unfold expired in *. simpl in Hexp. congruence.
Qed.

Lemma cleanup_old_sessions_wf (w : world) (st : state) :
  store_wf st -> store_wf (cleanup_old_sessions w st).2.
Proof.
  intros Hwf k l. unfold cleanup_old_sessions. cbn [snd heap user_sessions].
  rewrite lookup_foldl_delete.
  destruct (decide (k ∈ old_sessions st (time_time w))); [discriminate|].
  apply Hwf.
Qed.

(** C4: [cleanup_old_sessions], run at clock reading [now], keeps the heap,
    deletes from [user_sessions] the identifiers whose entry satisfies
    [now - created_at > 7200] (in binary64 arithmetic) and keeps every
    other binding as it was; run again at the same clock reading it finds
    no old session, deletes nothing and returns the state it was given. *)
Theorem cleanup_old_sessions_spec (w : world) (st : state) :
  let st' := (cleanup_old_sessions w st).2 in
  heap st' = heap st
  /\ (forall session_id,
        user_sessions st' !! session_id
        = match user_sessions st !! session_id with
          | Some l => if expired st (time_time w) l then None else Some l
          | None => None
          end)
  /\ (forall session_id l d,
        user_sessions st !! session_id = Some l ->
        heap st !! l = Some d ->
        user_sessions st' !! session_id
        = if PrimFloat.ltb 7200%float
               (PrimFloat.sub (time_time w) (created_at d))
          then None else Some l)
  /\ old_sessions st' (time_time w) = []
  /\ cleanup_old_sessions w st' = (Py.None_, st').
Proof.
  intros st'. subst st'.
  split; [reflexivity|]. split; [apply cleanup_lookup|].
  split.
  { intros session_id l d Hl Hd. rewrite cleanup_lookup, Hl.
    unfold expired. now rewrite Hd. }
  split; [apply old_sessions_after_cleanup|].
  unfold cleanup_old_sessions at 1.
  rewrite old_sessions_after_cleanup. reflexivity.
Qed.

Lemma cleanup_old_sessions_spec_witness :
  user_sessions state_2 !! Py.lit "s1" = Some 1%positive
  /\ user_sessions state_2 !! Py.lit "s2" = Some 2%positive
  /\ user_sessions (cleanup_old_sessions offline_world state_2).2
     !! Py.lit "s1" = None
  /\ user_sessions (cleanup_old_sessions offline_world state_2).2
     !! Py.lit "s2" = Some 2%positive
  /\ cleanup_old_sessions offline_world
       (cleanup_old_sessions offline_world state_2).2
     = (Py.None_, (cleanup_old_sessions offline_world state_2).2).
Proof.
  destruct (cleanup_old_sessions_spec offline_world state_2)
    as (_ & Hlookup & _ & _ & Hagain).
  split; [vm_compute; reflexivity|]. split; [vm_compute; reflexivity|].
  split; [rewrite Hlookup; vm_compute; reflexivity|].
  split; [rewrite Hlookup; vm_compute; reflexivity|].
  exact Hagain.
Defined.

(** The claim of C9 fails: with one expired session out of two, one entry
    is removed and the value returned is [None], not the count 1. *)
Lemma cleanup_returns_no_count :
  let '(r, st') := cleanup_old_sessions offline_world state_2 in
  size (user_sessions state_2) = 2
  /\ size (user_sessions st') = 1
  /\ r = Py.None_
  /\ r <> Py.Int 1.
Proof. vm_compute. repeat split; discriminate. Qed.

(** C9 (amended): [cleanup_old_sessions] returns [None]; the number of
    entries it removed is only printed, in the line
    "Cleaned up N old sessions", and only when it is not zero; nothing is
    sent to a provider. *)
Theorem cleanup_old_sessions_prints_count (w : world) (st : state) :
  let '(r, st') := cleanup_old_sessions w st in
  let removed := size (user_sessions st) - size (user_sessions st') in
  r = Py.None_
  /\ stdout (out st')
     = stdout (out st)
       ++ (if removed =? 0 then []
           else [Py.lit "Cleaned up " ++ Py.str_of_nat removed
                 ++ Py.lit " old sessions"])
  /\ calls (out st') = calls (out st).
Proof.
  unfold cleanup_old_sessions. cbn [user_sessions out].
  rewrite <- old_sessions_length.
  split; [reflexivity|].
  destruct (old_sessions st (time_time w)) as [|k ks]; simpl.
  - now rewrite app_nil_r.
  - split; reflexivity.
Qed.

(** ** clean_text *)

(** The claim of C8 fails: the two asterisks of "*\n*" are on different
    lines, so the first pass keeps them and joins the lines into "* *";
    the second pass sees one emphasis span and yields the empty text. No
    text here is near the 500-character boundary. *)
Lemma clean_text_not_idempotent :
  let text := [SimpleTTS.star; Py.newline; SimpleTTS.star] in
  SimpleTTS.clean_text text = [SimpleTTS.star; Py.space; SimpleTTS.star]
  /\ SimpleTTS.clean_text (SimpleTTS.clean_text text) = []
  /\ SimpleTTS.clean_text (SimpleTTS.clean_text text)
     <> SimpleTTS.clean_text text.
Proof. vm_compute. repeat split; discriminate. Qed.

(** A second input without a newline: removing the code span between
    "[a]" and "(b)" leaves a link for the next pass. *)
Example clean_text_link_after_code :
  SimpleTTS.clean_text (Py.lit "[a]`x`(b)") = Py.lit "[a](b)"
  /\ SimpleTTS.clean_text (Py.lit "[a](b)") = [].
Proof. vm_compute. split; reflexivity. Qed.

Example clean_text_markdown :
  SimpleTTS.clean_text
    (Py.lit "**Hola**,  _amigo_ [docs](http://x.y) `code` fin")
  = Py.lit "Hola, amigo fin".
Proof. vm_compute. reflexivity. Qed.

(** *** The bounds of the matcher are never reached *)

(** A scan of [s] takes at most [length s + 1] steps: with more fuel the
    result is the same. *)
Lemma sub_from_enough (r : Re.regex) (repl : option str -> str)
    (fuel fuel' : nat) (s : str) :
  length s < fuel -> length s < fuel' ->
  Re.sub_from fuel r repl s = Re.sub_from fuel' r repl s.
Proof.
  revert fuel' s. induction fuel as [|fuel IH]; intros fuel' s Hf Hf'; [lia|].
  destruct fuel' as [|fuel']; [lia|]. cbn [Re.sub_from].
  assert (Hcopy : Re.copy_char (Re.sub_from fuel r repl) s
                  = Re.copy_char (Re.sub_from fuel' r repl) s).
  { destruct s as [|x s]; [reflexivity|]. cbn [Re.copy_char length] in *.
    f_equal. apply IH; lia. }
  destruct (Re.match_at r s) as [[s' g]|]; [|exact Hcopy].
  destruct (length s' <? length s) eqn:Hlt; [|now rewrite Hcopy].
  apply Nat.ltb_lt in Hlt. f_equal. apply IH; lia.
Qed.

(** [.*?] reads at most the rest of the text: with more fuel the result is
    the same. *)
Lemma lazy_any_enough {R} (k : str -> option str -> option R) (s : str) :
  forall (fuel fuel' : nat) (g : option str),
    length s <= fuel -> length s <= fuel' ->
    Re.lazy (fun s g k => Re.run Re.Any s g k) k fuel s g
    = Re.lazy (fun s g k => Re.run Re.Any s g k) k fuel' s g.
Proof.
  induction s as [|x s IH]; intros fuel fuel' g Hf Hf'.
  - destruct fuel, fuel'; cbn [Re.lazy Re.run]; now destruct (k [] g).
  - destruct fuel as [|fuel]; [cbn [length] in Hf; lia|].
    destruct fuel' as [|fuel']; [cbn [length] in Hf'; lia|].
    cbn [Re.lazy Re.run length] in *.
    destruct (k (x :: s) g); [reflexivity|].
    destruct (x =? Py.newline)%N; [reflexivity|]. apply IH; lia.
Qed.

(** *** A pattern finds nothing where its first character is absent *)

Section NoMatch.

Variable r : Re.regex.
Variable c : N.
Variable repl : option str -> str.
Hypothesis no_match_nil : Re.match_at r [] = None.
Hypothesis no_match_cons :
  forall x s, (x =? c)%N = false -> Re.match_at r (x :: s) = None.

Lemma sub_from_absent (fuel : nat) (s : str) :
  Forall (fun x => (x =? c)%N = false) s -> Re.sub_from fuel r repl s = s.
Proof.
  revert s. induction fuel as [|fuel IH]; intros s Hs; [reflexivity|].
  destruct Hs as [|x s Hx Hs]; cbn [Re.sub_from].
  - now rewrite no_match_nil.
  - rewrite no_match_cons by exact Hx. cbn [Re.copy_char].
    now rewrite IH.
Qed.

Lemma sub_absent (s : str) :
  Forall (fun x => (x =? c)%N = false) s -> Re.sub r repl s = s.
Proof. apply sub_from_absent. Qed.

End NoMatch.

Lemma emphasis_needs_marker (c x : N) (s : str) :
  (x =? c)%N = false -> Re.match_at (SimpleTTS.emphasis c) (x :: s) = None.
Proof.
  intros Hx. unfold Re.match_at, SimpleTTS.emphasis. cbn [Re.run Re.greedy].
  rewrite Hx. reflexivity.
Qed.

Lemma link_needs_bracket (x : N) (s : str) :
  (x =? SimpleTTS.lbracket)%N = false ->
  Re.match_at SimpleTTS.link (x :: s) = None.
Proof.
  intros Hx. unfold Re.match_at, SimpleTTS.link. cbn [Re.run].
  rewrite Hx. reflexivity.
Qed.

Lemma code_needs_backtick (x : N) (s : str) :
  (x =? SimpleTTS.backtick)%N = false ->
  Re.match_at SimpleTTS.code (x :: s) = None.
Proof.
  intros Hx. unfold Re.match_at, SimpleTTS.code. cbn [Re.run].
  rewrite Hx. reflexivity.
Qed.

Lemma markup_free_absent (s : str) :
  markup_free s = true ->
  Forall (fun x => (x =? SimpleTTS.star)%N = false) s
  /\ Forall (fun x => (x =? SimpleTTS.underscore)%N = false) s
  /\ Forall (fun x => (x =? SimpleTTS.lbracket)%N = false) s
  /\ Forall (fun x => (x =? SimpleTTS.backtick)%N = false) s.
Proof.
  unfold markup_free. rewrite forallb_forall. intros Hfree.
  repeat split; apply Forall_forall; intros x Hx;
    apply list_elem_of_In, Hfree in Hx; unfold is_markup in Hx;
    apply negb_true_iff in Hx;
    repeat (apply orb_false_iff in Hx as [Hx ?]); assumption.
Qed.

Lemma regexes_keep_markup_free (s : str) :
  markup_free s = true ->
  Re.sub SimpleTTS.code Re.nothing
    (Re.sub SimpleTTS.link Re.nothing
       (Re.sub (SimpleTTS.emphasis SimpleTTS.underscore) Re.group1
          (Re.sub (SimpleTTS.emphasis SimpleTTS.star) Re.group1 s)))
  = s.
Proof.
  intros Hfree.
  destruct (markup_free_absent s Hfree) as (Hstar & Hunder & Hlink & Hcode).
  rewrite (sub_absent (SimpleTTS.emphasis SimpleTTS.star) SimpleTTS.star)
    by (try reflexivity; try exact Hstar; apply emphasis_needs_marker).
  rewrite (sub_absent (SimpleTTS.emphasis SimpleTTS.underscore)
             SimpleTTS.underscore)
    by (try reflexivity; try exact Hunder; apply emphasis_needs_marker).
  rewrite (sub_absent SimpleTTS.link SimpleTTS.lbracket)
    by (try reflexivity; try exact Hlink; apply link_needs_bracket).
  apply (sub_absent SimpleTTS.code SimpleTTS.backtick);
    try reflexivity; try exact Hcode; apply code_needs_backtick.
Qed.

(** *** Texts in normal form: words separated by single spaces *)

Lemma normal_from_cons (b : bool) (c : N) (s : str) :
  normal_from b (c :: s)
  = if (c =? Py.space)%N then b && normal_from false s
    else if Py.isspace c then false
    else normal_from true s.
Proof. reflexivity. Qed.

Lemma split_from_cons (cur : str) (c : N) (s : str) :
  Py.split_from cur (c :: s)
  = if Py.isspace c
    then match cur with
         | [] => Py.split_from [] s
         | _ => cur :: Py.split_from [] s
         end
    else Py.split_from (cur ++ [c]) s.
Proof. reflexivity. Qed.

Lemma join_cons2 (sep w w' : str) (ws : list str) :
  Py.join sep (w :: w' :: ws) = w ++ sep ++ Py.join sep (w' :: ws).
Proof. reflexivity. Qed.

Lemma word_char_not_space (c : N) :
  Py.isspace c = false -> (c =? Py.space)%N = false.
Proof.
  intros Hc. destruct (N.eqb_spec c Py.space) as [->|]; [|reflexivity].
  discriminate Hc.
Qed.

Lemma normal_from_word_char (b : bool) (c : N) (s : str) :
  Py.isspace c = false -> normal_from b (c :: s) = normal_from true s.
Proof.
  intros Hc. rewrite normal_from_cons, (word_char_not_space c Hc), Hc.
  reflexivity.
Qed.

Lemma normal_from_space (b : bool) (s : str) :
  normal_from b (Py.space :: s) = b && normal_from false s.
Proof. reflexivity. Qed.

Lemma normal_from_word (b : bool) (w t : str) :
  nospace w ->
  normal_from b (w ++ t)
  = match w with [] => normal_from b t | _ => normal_from true t end.
Proof.
  intros Hw. revert b. induction Hw as [|c w Hc Hw IH]; intros b.
  - reflexivity.
  - cbn [app]. rewrite (normal_from_word_char b c _ Hc), IH.
    now destruct w.
Qed.

Lemma split_from_words (s cur : str) :
  nospace cur ->
  Forall (fun w => nospace w /\ w <> []) (Py.split_from cur s).
Proof.
  revert cur. induction s as [|c s IH]; intros cur Hcur.
  - destruct cur as [|x cur]; cbn [Py.split_from]; [constructor|].
    constructor; [split; [exact Hcur|discriminate]|constructor].
  - rewrite split_from_cons. destruct (Py.isspace c) eqn:Hc.
    + destruct cur as [|x cur].
      * apply IH. constructor.
      * constructor; [split; [exact Hcur|discriminate]|].
        apply IH. constructor.
    + apply IH. apply Forall_app. split; [exact Hcur|].
      repeat constructor. exact Hc.
Qed.

Lemma join_words_normal (ws : list str) :
  Forall (fun w => nospace w /\ w <> []) ws -> ws <> [] ->
  normal_from false (Py.join [Py.space] ws) = true.
Proof.
  induction 1 as [|w ws [Hw Hne] Hws IH]; intros Hnil; [congruence|].
  destruct ws as [|w' ws].
  - cbn [Py.join]. rewrite <- (app_nil_r w), (normal_from_word _ w [] Hw).
    destruct w; [congruence|reflexivity].
  - rewrite join_cons2, (normal_from_word _ w _ Hw).
    destruct w; [congruence|].
    cbn [app]. rewrite normal_from_space. apply IH. discriminate.
Qed.

(** What [' '.join(s.split())] returns is empty or in normal form. *)
Lemma join_split_normal (s : str) :
  Py.join [Py.space] (Py.split s) = []
  \/ normal_from false (Py.join [Py.space] (Py.split s)) = true.
Proof.
  destruct (Py.split s) as [|w ws] eqn:Hsplit; [now left|right].
  rewrite <- Hsplit. apply join_words_normal.
  - apply split_from_words. constructor.
  - rewrite Hsplit. discriminate.
Qed.

(** Splitting and joining a text in normal form gives it back. *)
Lemma split_from_normal (s : str) :
  (forall cur, cur <> [] -> nospace cur -> normal_from true s = true ->
     Py.join [Py.space] (Py.split_from cur s) = cur ++ s)
  /\ (normal_from false s = true ->
      Py.join [Py.space] (Py.split_from [] s) = s).
Proof.
  induction s as [|c s [IHword IHgap]].
  - split; [|discriminate].
    intros cur Hne _ _. destruct cur; [congruence|].
    cbn [Py.split_from Py.join]. now rewrite app_nil_r.
  - split.
    + intros cur Hne Hcur Hnormal.
      rewrite normal_from_cons in Hnormal. rewrite split_from_cons.
      destruct (N.eqb_spec c Py.space) as [->|Hc].
      * change (Py.isspace Py.space) with true. cbn [andb] in Hnormal.
        destruct cur as [|x cur]; [congruence|].
        pose proof (IHgap Hnormal) as Hrest.
        destruct (Py.split_from [] s) as [|w ws].
        { cbn [Py.join] in Hrest. subst s. discriminate Hnormal. }
        rewrite join_cons2, Hrest. reflexivity.
      * destruct (Py.isspace c) eqn:Hsp; [discriminate|].
        rewrite IHword; [now rewrite <- app_assoc| | |exact Hnormal].
        -- now destruct cur.
        -- apply Forall_app. split; [exact Hcur|]. now repeat constructor.
    + intros Hnormal.
      rewrite normal_from_cons in Hnormal. rewrite split_from_cons.
      destruct (c =? Py.space)%N; [discriminate|].
      destruct (Py.isspace c) eqn:Hsp; [discriminate|].
      apply (IHword [c]); [discriminate| |exact Hnormal].
      now repeat constructor.
Qed.

Lemma split_join_normal (s : str) :
  normal_from false s = true -> Py.join [Py.space] (Py.split s) = s.
Proof. apply split_from_normal. Qed.

(** Cutting a text in normal form and adding "..." keeps the form. *)
Lemma normal_from_truncate (n : str) (b : bool) (k : nat) :
  normal_from b n = true ->
  normal_from b (take k n ++ Py.lit "...") = true.
Proof.
  revert b k. induction n as [|c n IH]; intros b k Hn.
  - now destruct k.
  - destruct k as [|k]; [reflexivity|].
    cbn [take app]. rewrite normal_from_cons in *.
    destruct (c =? Py.space)%N.
    + apply andb_true_iff in Hn as [-> Hn]. cbn [andb]. now apply IH.
    + destruct (Py.isspace c); [discriminate|]. now apply IH.
Qed.

Lemma rstrip_normal (s : str) (b : bool) :
  normal_from b s = true -> Py.rstrip s = s.
Proof.
  revert b. induction s as [|c s IH]; intros b Hn; [reflexivity|].
  rewrite normal_from_cons in Hn. cbn [Py.rstrip].
  destruct (N.eqb_spec c Py.space) as [->|Hc].
  - apply andb_true_iff in Hn as [_ Hn]. rewrite (IH _ Hn).
    destruct s; [discriminate Hn|reflexivity].
  - destruct (Py.isspace c) eqn:Hsp; [discriminate|].
    rewrite (IH _ Hn). now destruct s.
Qed.

Lemma strip_normal (s : str) :
  normal_from false s = true -> Py.strip s = s.
Proof.
  intros Hn. unfold Py.strip.
  assert (Hl : Py.lstrip s = s).
  { destruct s as [|c s]; [reflexivity|].
    rewrite normal_from_cons in Hn. cbn [Py.lstrip].
    destruct (c =? Py.space)%N; [discriminate|].
    now destruct (Py.isspace c). }
  rewrite Hl. now apply rstrip_normal with false.
Qed.

(** The result of [clean_text] is empty or in normal form, and has at most
    500 characters. *)
Lemma clean_text_shape (text : str) :
  (SimpleTTS.clean_text text = []
   \/ normal_from false (SimpleTTS.clean_text text) = true)
  /\ length (SimpleTTS.clean_text text) <= 500.
Proof.
  unfold SimpleTTS.clean_text.
  set (s := Re.sub SimpleTTS.code _ _).
  destruct (join_split_normal s) as [Hnil|Hnormal].
  - rewrite Hnil. change (Py.strip _) with (@nil N).
    split; [now left|cbn [length]; lia].
  - destruct (500 <? length (Py.join [Py.space] (Py.split s))) eqn:Hlen.
    + apply Nat.ltb_lt in Hlen.
      pose proof (normal_from_truncate _ false 497 Hnormal) as Hcut.
      rewrite (strip_normal _ Hcut). split; [now right|].
      rewrite length_app, length_take.
      change (length (Py.lit "...")) with 3. lia.
    + apply Nat.ltb_ge in Hlen.
      rewrite (strip_normal _ Hnormal). split; [now right|exact Hlen].
Qed.

(** A sufficient condition: when the cleaned text contains none of the
    characters [*], [_], [[] and [`], cleaning it again returns it
    unchanged; this covers texts cut at the 500-character boundary. *)
Theorem clean_text_idempotent_without_markup (text : str) :
  markup_free (SimpleTTS.clean_text text) = true ->
  SimpleTTS.clean_text (SimpleTTS.clean_text text)
  = SimpleTTS.clean_text text.
Proof.
  intros Hfree.
  destruct (clean_text_shape text) as [Hshape Hlen].
  set (cleaned := SimpleTTS.clean_text text) in *.
  unfold SimpleTTS.clean_text at 1.
  rewrite (regexes_keep_markup_free cleaned Hfree).
  destruct Hshape as [Hnil|Hnormal].
  - rewrite Hnil. reflexivity.
  - rewrite (split_join_normal cleaned Hnormal).
    apply Nat.ltb_ge in Hlen. rewrite Hlen.
    now apply strip_normal.
Qed.

Lemma clean_text_idempotent_without_markup_witness :
  markup_free (SimpleTTS.clean_text long_text) = true
  /\ length (SimpleTTS.clean_text long_text) = 500
  /\ SimpleTTS.clean_text (SimpleTTS.clean_text long_text)
     = SimpleTTS.clean_text long_text.
Proof.
  split; [vm_compute; reflexivity|].
  split; [vm_compute; reflexivity|].
  apply (clean_text_idempotent_without_markup long_text).
  vm_compute. reflexivity.
Defined.

(** * Further properties *)

(** ** The conversation memory *)

Lemma last_n_snoc_last {A} (k : nat) (l : list A) (x : A) :
  0 < k -> last (Py.last_n k (l ++ [x])) = Some x.
Proof.
  intros Hk. unfold Py.last_n. rewrite length_app. cbn [length].
  rewrite drop_app_le by lia. apply last_snoc.
Qed.

(** X1: whatever the memory holds before, after [add_to_memory] it holds at
    most 10 records, the new record is the last one, and the key, language
    and proficiency of the tutor are unchanged. *)
Theorem add_to_memory_bounded (self : t) (user_message : str)
    (ai_response : Py.value) :
  length (memory (add_to_memory self user_message ai_response)) <= 10
  /\ last (memory (add_to_memory self user_message ai_response))
     = Some {| user := user_message; ai := ai_response |}
  /\ groq_api_key (add_to_memory self user_message ai_response)
     = groq_api_key self
  /\ language (add_to_memory self user_message ai_response) = language self
  /\ proficiency (add_to_memory self user_message ai_response)
     = proficiency self.
Proof.
  split; [rewrite add_to_memory_memory, last_n_length; lia|].
  split; [rewrite add_to_memory_memory; apply last_n_snoc_last; lia|].
  unfold add_to_memory. now destruct (10 <? _).
Qed.

Lemma last_n_last_n {A} (j k : nat) (l : list A) :
  j <= k -> Py.last_n j (Py.last_n k l) = Py.last_n j l.
Proof.
  intros Hjk. unfold Py.last_n at 1. rewrite last_n_length.
  unfold Py.last_n. rewrite drop_drop. f_equal. lia.
Qed.

Lemma get_memory_context_transcript (self : t) :
  get_memory_context self
  = match memory self with
    | [] => start_of_conversation
    | _ => concat (render <$> Py.last_n 3 (memory self))
    end.
Proof.
  unfold get_memory_context. destruct (memory self); [reflexivity|].
  now rewrite foldl_render.
Qed.

Lemma last_n_fmap {A B} (f : A -> B) (k : nat) (l : list A) :
  Py.last_n k (f <$> l) = f <$> Py.last_n k l.
Proof. unfold Py.last_n. now rewrite length_fmap, fmap_drop. Qed.

(** X2: after any non-empty sequence of [add_to_memory] calls on an empty
    memory, [get_memory_context] is the transcript of the last three calls
    (of all of them when there are fewer), oldest first: for each call a
    newline, "User: " and the user message, a newline, "AI: " and the
    reply. *)
Theorem get_memory_context_after_turns (self : t)
    (turns : list (str * Py.value)) :
  memory self = [] -> turns <> [] ->
  get_memory_context (add_all self turns)
  = concat
      ((fun turn =>
          [10%N] ++ Py.lit "User: " ++ turn.1
          ++ [10%N] ++ Py.lit "AI: "
          ++ match turn.2 with
             | Py.Str s => s
             | Py.Int n => Py.str_of_nat n
             | Py.None_ => Py.lit "None"
             end) <$> Py.last_n 3 turns).
Proof.
  intros Hempty Hturns.
  rewrite get_memory_context_transcript.
  rewrite add_all_memory by (rewrite Hempty; cbn [length]; lia).
  rewrite Hempty. cbn [app]. rewrite last_n_last_n by lia.
  destruct (Py.last_n 10 (record_of <$> turns)) eqn:Hwin.
  - exfalso.
    apply (last_n_nonempty 10 (record_of <$> turns)); [lia| |exact Hwin].
    destruct turns; [congruence|discriminate].
  - rewrite last_n_fmap, <- list_fmap_compose. reflexivity.
Qed.

(** Twelve turns from an empty memory: the context is the text of turns 9,
    10 and 11. *)
Lemma get_memory_context_after_turns_witness :
  memory example_tutor = [] /\ example_turns <> []
  /\ get_memory_context (add_all example_tutor example_turns)
     = [10%N] ++ Py.lit "User: question 9"
       ++ [10%N] ++ Py.lit "AI: answer 9"
       ++ [10%N] ++ Py.lit "User: question 10"
       ++ [10%N] ++ Py.lit "AI: answer 10"
       ++ [10%N] ++ Py.lit "User: question 11"
       ++ [10%N] ++ Py.lit "AI: answer 11".
Proof.
  split; [reflexivity|]. split; [discriminate|].
  rewrite (get_memory_context_after_turns example_tutor example_turns);
    [|reflexivity|discriminate].
  vm_compute. reflexivity.
Defined.

(** X3: the system prompt depends on the memory through its last three
    records only: records older than these change nothing. *)
Theorem get_system_prompt_ignores_older (self : t)
    (older recent : list exchange) :
  length recent = 3 ->
  get_system_prompt (set_memory (older ++ recent) self)
  = get_system_prompt (set_memory recent self).
Proof.
  intros Hlen.
  assert (Hctx : get_memory_context (set_memory (older ++ recent) self)
                 = get_memory_context (set_memory recent self)).
  { unfold get_memory_context. cbn [memory set_memory].
    assert (Hlast : Py.last_n 3 (older ++ recent) = recent).
    { unfold Py.last_n. rewrite length_app, Hlen.
      replace (length older + 3 - 3) with (length older) by lia.
      apply drop_app_length. }
    rewrite Hlast, (last_n_short 3 recent) by lia.
    destruct recent as [|r recent]; [discriminate Hlen|].
    now destruct older. }
  unfold get_system_prompt. rewrite Hctx. reflexivity.
Qed.

Lemma get_system_prompt_ignores_older_witness :
  length (record_of <$> drop 9 example_turns) = 3
  /\ get_system_prompt
       (set_memory
          ((record_of <$> take 9 example_turns)
           ++ (record_of <$> drop 9 example_turns)) example_tutor)
     = get_system_prompt
         (set_memory (record_of <$> drop 9 example_turns) example_tutor).
Proof.
  split; [reflexivity|].
  apply (get_system_prompt_ignores_older example_tutor
           (record_of <$> take 9 example_turns)
           (record_of <$> drop 9 example_turns)).
  reflexivity.
Defined.

(** X4: when the completion call returns but its content is [None], the
    exchange is appended with [None] as the reply before [strip] fails, so
    the caller receives the fallback sentence and the memory has changed. *)
Theorem get_response_none_content (w : world) (self : t)
    (user_message : str) (o : io) :
  groq_create w (messages self user_message) = Completed Py.None_ ->
  let '(reply, self', _) := get_response w self user_message o in
  reply = fallback (Py.lit "'NoneType' object has no attribute 'strip'")
  /\ memory self'
     = Py.last_n 10
         (memory self ++ [ {| user := user_message; ai := Py.None_ |} ]).
Proof.
  intros Hnone. unfold get_response. rewrite Hnone. cbn [on_exception].
  split; [reflexivity|apply add_to_memory_memory].
Qed.

Lemma get_response_none_content_witness :
  groq_create silent_world (messages example_tutor (Py.lit "Hola"))
  = Completed Py.None_
  /\ let '(reply, self', _) :=
       get_response silent_world example_tutor (Py.lit "Hola") no_output in
     reply = fallback (Py.lit "'NoneType' object has no attribute 'strip'")
     /\ memory self'
        = Py.last_n 10
            (memory example_tutor
             ++ [ {| user := Py.lit "Hola"; ai := Py.None_ |} ]).
Proof.
  split; [reflexivity|].
  apply (get_response_none_content silent_world example_tutor (Py.lit "Hola")
           no_output).
  reflexivity.
Defined.

(** ** clean_text: shape of the result *)

Lemma clean_text_passes (text : str) :
  SimpleTTS.clean_text text
  = Py.strip (truncate (normalise (remove_markup text))).
Proof. reflexivity. Qed.

Lemma truncate_normal (s : str) :
  normal_from false s = true -> normal_from false (truncate s) = true.
Proof.
  intros Hn. unfold truncate. destruct (500 <? length s); [|exact Hn].
  now apply normal_from_truncate.
Qed.

Lemma truncate_length (s : str) :
  length (truncate s) = if 500 <? length s then 500 else length s.
Proof.
  unfold truncate. destruct (500 <? length s) eqn:Hlen; [|reflexivity].
  apply Nat.ltb_lt in Hlen. rewrite length_app, length_take.
  change (length (Py.lit "...")) with 3. lia.
Qed.

Lemma clean_text_truncate (text : str) :
  SimpleTTS.clean_text text = truncate (normalise (remove_markup text)).
Proof.
  rewrite clean_text_passes.
  destruct (join_split_normal (remove_markup text)) as [Hnil|Hnormal].
  - unfold normalise. rewrite Hnil. reflexivity.
  - apply strip_normal, truncate_normal, Hnormal.
Qed.

(** X5: the final [strip()] of [clean_text] never removes anything: the
    result is the truncation of the whitespace-normalised text, so it has
    min(n, 500) characters where n is the length of that text, and exactly
    500, ending in "...", when n exceeds 500. *)
Theorem clean_text_is_truncation (text : str) :
  SimpleTTS.clean_text text = truncate (normalise (remove_markup text))
  /\ length (SimpleTTS.clean_text text)
     = Nat.min (length (normalise (remove_markup text))) 500
  /\ (if 500 <? length (normalise (remove_markup text))
      then SimpleTTS.clean_text text
           = take 497 (normalise (remove_markup text)) ++ Py.lit "..."
      else SimpleTTS.clean_text text = normalise (remove_markup text)).
Proof.
  pose proof (clean_text_truncate text) as Hstrip.
  split; [exact Hstrip|]. rewrite Hstrip, truncate_length.
  unfold truncate.
  destruct (500 <? length (normalise (remove_markup text))) eqn:Hlen.
  - apply Nat.ltb_lt in Hlen. split; [lia|reflexivity].
  - apply Nat.ltb_ge in Hlen. split; [lia|reflexivity].
Qed.

(** X6: the result of [clean_text] has at most 500 characters and is
    whitespace-normalised: stripping it, or splitting it on whitespace and
    joining the words with single spaces, gives it back. *)
Theorem clean_text_normalised (text : str) :
  length (SimpleTTS.clean_text text) <= 500
  /\ Py.strip (SimpleTTS.clean_text text) = SimpleTTS.clean_text text
  /\ Py.join [Py.space] (Py.split (SimpleTTS.clean_text text))
     = SimpleTTS.clean_text text.
Proof.
  destruct (clean_text_shape text) as [[Hnil|Hnormal] Hlen].
  - rewrite Hnil. repeat split. cbn [length]. lia.
  - split; [exact Hlen|]. split; [now apply strip_normal|].
    now apply split_join_normal.
Qed.

Lemma lacks_Forall (c : N) (s : str) :
  lacks c s = true <-> Forall (fun x => (x =? c)%N = false) s.
Proof.
  unfold lacks. rewrite forallb_forall, Forall_forall. split.
  - intros H x Hx. apply negb_true_iff, H. now apply list_elem_of_In.
  - intros H x Hx. apply negb_true_iff, H. now apply list_elem_of_In.
Qed.

Lemma lacks_app (c : N) (a b : str) :
  lacks c (a ++ b) = lacks c a && lacks c b.
Proof. apply forallb_app. Qed.

Lemma markup_free_lacks (s : str) :
  markup_free s = true
  <-> lacks SimpleTTS.star s = true /\ lacks SimpleTTS.underscore s = true
      /\ lacks SimpleTTS.lbracket s = true
      /\ lacks SimpleTTS.backtick s = true.
Proof.
  rewrite !lacks_Forall. split; [apply markup_free_absent|].
  intros (Hs & Hu & Hl & Hb). unfold markup_free. apply forallb_forall.
  intros x Hx. apply list_elem_of_In in Hx.
  rewrite Forall_forall in Hs, Hu, Hl, Hb. unfold is_markup.
  now rewrite (Hs x Hx), (Hu x Hx), (Hl x Hx), (Hb x Hx).
Qed.

(** X7: a text without [*], [_], [[] and [`] is only normalised and
    truncated; when it is already normalised and has at most 500
    characters, [clean_text] returns it as it is. *)
Theorem clean_text_plain (text : str) :
  markup_free text = true ->
  SimpleTTS.clean_text text = truncate (normalise text)
  /\ (normalise text = text -> length text <= 500 ->
      SimpleTTS.clean_text text = text).
Proof.
  intros Hfree.
  pose proof (clean_text_truncate text) as Hclean.
  assert (Hkeep : remove_markup text = text)
    by now apply regexes_keep_markup_free.
  rewrite Hkeep in Hclean. split; [exact Hclean|].
  intros Hnorm Hlen. rewrite Hclean, Hnorm. unfold truncate.
  apply Nat.ltb_ge in Hlen. now rewrite Hlen.
Qed.

Lemma clean_text_plain_witness :
  markup_free (Py.lit "  Hola,   amigo  ") = true
  /\ SimpleTTS.clean_text (Py.lit "  Hola,   amigo  ")
     = truncate (normalise (Py.lit "  Hola,   amigo  "))
  /\ SimpleTTS.clean_text (Py.lit "  Hola,   amigo  ") = Py.lit "Hola, amigo".
Proof.
  split; [reflexivity|].
  destruct (clean_text_plain (Py.lit "  Hola,   amigo  ")) as [Hclean _];
    [reflexivity|].
  split; [exact Hclean|]. rewrite Hclean. reflexivity.
Defined.

(** ** clean_text: what the patterns remove *)

(** [.*?] reads over a text without newline up to the first place where the
    rest of the pattern matches, when the rest of the pattern cannot start
    at a character other than [c] and [c] does not occur before. *)
Lemma lazy_any_scan {R} (K : str -> option str -> option R) (c : N)
    (w t : str) (g : option str) (x : R) :
  (forall y s g', (y =? c)%N = false -> K (y :: s) g' = None) ->
  span_text c w = true ->
  K t g = Some x ->
  forall fuel, length w <= fuel ->
    Re.lazy (fun s g k => Re.run Re.Any s g k) K fuel (w ++ t) g = Some x.
Proof.
  intros Hfail Hw Hend. apply andb_true_iff in Hw as [Hc Hnl].
  apply lacks_Forall in Hc. apply lacks_Forall in Hnl.
  induction w as [|y w IH]; intros fuel Hfuel.
  - cbn [app]. destruct fuel; cbn [Re.lazy]; now rewrite Hend.
  - destruct fuel as [|fuel]; [cbn [length] in Hfuel; lia|].
    inversion Hc as [|? ? Hy Hc']; subst.
    inversion Hnl as [|? ? Hy' Hnl']; subst.
    cbn [app Re.lazy Re.run]. rewrite (Hfail y _ g Hy), Hy'.
    apply IH; [exact Hc'|exact Hnl'|cbn [length] in Hfuel; lia].
Qed.

(** The marker [c{1,2}], greedy: it fails at another character, and takes
    two markers when the rest of the pattern matches after them. *)
Lemma greedy_marker_miss {R} (k : str -> option str -> option R) (c y : N)
    (s : str) (g : option str) :
  (y =? c)%N = false ->
  Re.run (Re.Repeat 1 2 (Re.Chr c)) (y :: s) g k = None.
Proof. intros Hy. cbn [Re.run Re.greedy]. now rewrite Hy. Qed.

Lemma greedy_marker_two {R} (k : str -> option str -> option R) (c : N)
    (s : str) (g : option str) (x : R) :
  k s g = Some x ->
  Re.run (Re.Repeat 1 2 (Re.Chr c)) (c :: c :: s) g k = Some x.
Proof.
  intros Hk. cbn [Re.run Re.greedy Nat.pred]. rewrite !N.eqb_refl.
  now rewrite Hk.
Qed.

(** A single marker is taken when no second one follows. *)
Lemma greedy_marker_one {R} (k : str -> option str -> option R) (c : N)
    (s : str) (g : option str) (x : R) :
  match s with [] => true | y :: _ => negb (y =? c)%N end = true ->
  k s g = Some x ->
  Re.run (Re.Repeat 1 2 (Re.Chr c)) (c :: s) g k = Some x.
Proof.
  intros Hs Hk. cbn [Re.run Re.greedy Nat.pred]. rewrite N.eqb_refl.
  destruct s as [|y s].
  - cbn [Nat.eqb]. now rewrite Hk.
  - apply negb_true_iff in Hs. rewrite Hs. cbn [Nat.eqb]. now rewrite Hk.
Qed.

Lemma run_seq {R} (r1 r2 : Re.regex) (s : str) (g : option str)
    (k : str -> option str -> option R) :
  Re.run (Re.Seq r1 r2) s g k
  = Re.run r1 s g (fun s' g' => Re.run r2 s' g' k).
Proof. reflexivity. Qed.

Lemma run_chr_hit {R} (c : N) (s : str) (g : option str)
    (k : str -> option str -> option R) (x : R) :
  k s g = Some x -> Re.run (Re.Chr c) (c :: s) g k = Some x.
Proof. intros Hk. cbn [Re.run]. now rewrite N.eqb_refl. Qed.

Lemma run_chr_miss {R} (c y : N) (s : str) (g : option str)
    (k : str -> option str -> option R) :
  (y =? c)%N = false -> Re.run (Re.Chr c) (y :: s) g k = None.
Proof. intros Hy. cbn [Re.run]. now rewrite Hy. Qed.

(** [(.*?)] in front of a pattern that needs [c]. *)
Lemma run_group_lazy_scan {R} (k : str -> option str -> option R) (c : N)
    (w t : str) (g : option str) (x : R) :
  (forall y s g', (y =? c)%N = false -> k (y :: s) g' = None) ->
  span_text c w = true ->
  k t (Some w) = Some x ->
  Re.run (Re.Group (Re.LazyStar Re.Any)) (w ++ t) g k = Some x.
Proof.
  intros Hfail Hw Hend. cbn [Re.run].
  apply (lazy_any_scan _ c w t); [|exact Hw| |rewrite length_app; lia].
  - intros y s g' Hy. now apply Hfail.
  - now rewrite length_app, Nat.add_sub, take_app_length.
Qed.

(** [.*?] in front of a pattern that needs [c]. *)
Lemma run_lazy_scan {R} (k : str -> option str -> option R) (c : N)
    (w t : str) (g : option str) (x : R) :
  (forall y s g', (y =? c)%N = false -> k (y :: s) g' = None) ->
  span_text c w = true ->
  k t g = Some x ->
  Re.run (Re.LazyStar Re.Any) (w ++ t) g k = Some x.
Proof.
  intros Hfail Hw Hend. cbn [Re.run].
  apply (lazy_any_scan _ c w t); [exact Hfail|exact Hw|exact Hend|].
  rewrite length_app. lia.
Qed.

(** A bold span: two markers, a text without marker and newline, two
    markers. The match is the whole span and group 1 is the text. *)
Lemma match_at_bold (c : N) (w rest : str) :
  span_text c w = true ->
  Re.match_at (SimpleTTS.emphasis c) (c :: c :: w ++ c :: c :: rest)
  = Some (rest, Some w).
Proof.
  intros Hw. unfold Re.match_at, SimpleTTS.emphasis. rewrite run_seq.
  apply greedy_marker_two. rewrite run_seq.
  apply (run_group_lazy_scan _ c w); [|exact Hw|].
  - intros y s g' Hy. now apply greedy_marker_miss.
  - now apply greedy_marker_two.
Qed.

(** An italic span: one marker, a non-empty text without marker and
    newline, one marker that no other marker follows. *)
Lemma match_at_italic (c : N) (w rest : str) :
  span_text c w = true -> w <> [] ->
  match rest with [] => true | y :: _ => negb (y =? c)%N end = true ->
  Re.match_at (SimpleTTS.emphasis c) (c :: w ++ c :: rest)
  = Some (rest, Some w).
Proof.
  intros Hw Hne Hrest. unfold Re.match_at, SimpleTTS.emphasis.
  rewrite run_seq. apply greedy_marker_one.
  - destruct w as [|y w]; [congruence|]. cbn [app].
    apply andb_true_iff in Hw as [Hc _]. cbn [lacks forallb] in Hc.
    now apply andb_true_iff in Hc as [Hy _].
  - rewrite run_seq. apply (run_group_lazy_scan _ c w); [|exact Hw|].
    + intros y s g' Hy. now apply greedy_marker_miss.
    + now apply greedy_marker_one.
Qed.

(** A link: no right bracket or newline in the label, no right parenthesis
    or newline in the target. *)
Lemma match_at_link (label target rest : str) :
  span_text SimpleTTS.rbracket label = true ->
  span_text SimpleTTS.rparen target = true ->
  Re.match_at SimpleTTS.link
    (SimpleTTS.lbracket :: label
     ++ SimpleTTS.rbracket :: SimpleTTS.lparen :: target
     ++ SimpleTTS.rparen :: rest)
  = Some (rest, None).
Proof.
  intros Hlabel Htarget. unfold Re.match_at, SimpleTTS.link.
  rewrite run_seq. apply run_chr_hit. rewrite run_seq.
  apply (run_lazy_scan _ SimpleTTS.rbracket label); [|exact Hlabel|].
  - intros y s g' Hy. rewrite run_seq. now apply run_chr_miss.
  - rewrite run_seq. apply run_chr_hit.
    rewrite run_seq. apply run_chr_hit. rewrite run_seq.
    apply (run_lazy_scan _ SimpleTTS.rparen target); [|exact Htarget|].
    + intros y s g' Hy. now apply run_chr_miss.
    + now apply run_chr_hit.
Qed.

(** A code span: no backtick or newline between the backticks. *)
Lemma match_at_code (w rest : str) :
  span_text SimpleTTS.backtick w = true ->
  Re.match_at SimpleTTS.code
    (SimpleTTS.backtick :: w ++ SimpleTTS.backtick :: rest)
  = Some (rest, None).
Proof.
  intros Hw. unfold Re.match_at, SimpleTTS.code.
  rewrite run_seq. apply run_chr_hit. rewrite run_seq.
  apply (run_lazy_scan _ SimpleTTS.backtick w); [|exact Hw|].
  - intros y s g' Hy. now apply run_chr_miss.
  - now apply run_chr_hit.
Qed.

(** *** The scan of [re.sub] *)

Section Scan.

Variable r : Re.regex.
Variable c : N.
Variable repl : option str -> str.
Hypothesis no_match_nil : Re.match_at r [] = None.
Hypothesis no_match_cons :
  forall x s, (x =? c)%N = false -> Re.match_at r (x :: s) = None.

(** The text before the first [c] is copied. *)
Lemma sub_prefix (pre s : str) :
  lacks c pre = true -> Re.sub r repl (pre ++ s) = pre ++ Re.sub r repl s.
Proof.
  intros Hpre. apply lacks_Forall in Hpre. unfold Re.sub.
  induction Hpre as [|x pre Hx Hpre IH]; [reflexivity|].
  change (Re.sub_from (S (length ((x :: pre) ++ s))) r repl
            ((x :: pre) ++ s))
    with (match Re.match_at r (x :: pre ++ s) with
          | Some (s', g) =>
              if length s' <? length (x :: pre ++ s)
              then repl g
                   ++ Re.sub_from (S (length (pre ++ s))) r repl s'
              else repl g
                   ++ Re.copy_char
                        (Re.sub_from (S (length (pre ++ s))) r repl)
                        (x :: pre ++ s)
          | None =>
              Re.copy_char (Re.sub_from (S (length (pre ++ s))) r repl)
                (x :: pre ++ s)
          end).
  rewrite no_match_cons by exact Hx.
  cbn [Re.copy_char app]. now rewrite IH.
Qed.

(** A match is replaced and the scan resumes after it. *)
Lemma sub_match (s s' : str) (g : option str) :
  Re.match_at r s = Some (s', g) -> length s' < length s ->
  Re.sub r repl s = repl g ++ Re.sub r repl s'.
Proof.
  intros Hmatch Hlen. unfold Re.sub.
  change (Re.sub_from (S (length s)) r repl s)
    with (match Re.match_at r s with
          | Some (s', g) =>
              if length s' <? length s
              then repl g ++ Re.sub_from (length s) r repl s'
              else repl g ++ Re.copy_char (Re.sub_from (length s) r repl) s
          | None => Re.copy_char (Re.sub_from (length s) r repl) s
          end).
  rewrite Hmatch.
  apply Nat.ltb_lt in Hlen as Hlt. rewrite Hlt. f_equal.
  apply sub_from_enough; lia.
Qed.

(** Both together. *)
Lemma sub_span (pre span rest : str) (g : option str) :
  lacks c pre = true ->
  Re.match_at r (span ++ rest) = Some (rest, g) -> span <> [] ->
  Re.sub r repl (pre ++ span ++ rest) = pre ++ repl g ++ Re.sub r repl rest.
Proof.
  intros Hpre Hmatch Hspan. rewrite (sub_prefix pre) by exact Hpre.
  f_equal. apply sub_match; [exact Hmatch|].
  rewrite length_app. destruct span; [congruence|]. cbn [length]. lia.
Qed.

End Scan.

Lemma emphasis_absent (c : N) (s : str) :
  lacks c s = true -> Re.sub (SimpleTTS.emphasis c) Re.group1 s = s.
Proof.
  intros Hs. apply (sub_absent _ c); [reflexivity| |now apply lacks_Forall].
  apply emphasis_needs_marker.
Qed.

Lemma link_absent (s : str) :
  lacks SimpleTTS.lbracket s = true ->
  Re.sub SimpleTTS.link Re.nothing s = s.
Proof.
  intros Hs. apply (sub_absent _ SimpleTTS.lbracket);
    [reflexivity| |now apply lacks_Forall].
  apply link_needs_bracket.
Qed.

(** [re.sub] on a bold span in the middle of a text: the text before the
    first marker is kept, the span is replaced by its content and the scan
    goes on after the span. *)
Lemma sub_bold (c : N) (pre w post : str) :
  lacks c pre = true -> span_text c w = true ->
  Re.sub (SimpleTTS.emphasis c) Re.group1
    (pre ++ [c; c] ++ w ++ [c; c] ++ post)
  = pre ++ w ++ Re.sub (SimpleTTS.emphasis c) Re.group1 post.
Proof.
  intros Hpre Hw.
  change (pre ++ [c; c] ++ w ++ [c; c] ++ post)
    with (pre ++ (c :: c :: w ++ [c; c] ++ post)).
  rewrite (sub_prefix _ c) by (try exact Hpre; apply emphasis_needs_marker).
  f_equal.
  rewrite (sub_match _ _ (c :: c :: w ++ [c; c] ++ post) post (Some w)).
  - reflexivity.
  - now apply match_at_bold.
  - cbn [length]. rewrite !length_app. cbn [length]. lia.
Qed.

Lemma sub_italic (c : N) (pre w post : str) :
  lacks c pre = true -> span_text c w = true -> w <> [] ->
  match post with [] => true | y :: _ => negb (y =? c)%N end = true ->
  Re.sub (SimpleTTS.emphasis c) Re.group1 (pre ++ [c] ++ w ++ [c] ++ post)
  = pre ++ w ++ Re.sub (SimpleTTS.emphasis c) Re.group1 post.
Proof.
  intros Hpre Hw Hne Hpost.
  change (pre ++ [c] ++ w ++ [c] ++ post)
    with (pre ++ (c :: w ++ [c] ++ post)).
  rewrite (sub_prefix _ c) by (try exact Hpre; apply emphasis_needs_marker).
  f_equal.
  rewrite (sub_match _ _ (c :: w ++ [c] ++ post) post (Some w)).
  - reflexivity.
  - now apply match_at_italic.
  - cbn [length]. rewrite !length_app. cbn [length]. lia.
Qed.

Lemma sub_kept (c : N) (pre w post : str) :
  lacks c pre = true -> span_text c w = true ->
  Re.sub (SimpleTTS.emphasis c) Re.group1 (pre ++ w ++ post)
  = pre ++ w ++ Re.sub (SimpleTTS.emphasis c) Re.group1 post.
Proof.
  intros Hpre Hw. apply andb_true_iff in Hw as [Hw _].
  rewrite (app_assoc pre w post).
  rewrite (sub_prefix _ c)
    by (try apply emphasis_needs_marker; now rewrite lacks_app, Hpre, Hw).
  now rewrite <- app_assoc.
Qed.

(** X8: a bold span [**w**] whose text has no asterisk and no newline,
    after a text without asterisk, is cleaned like its text alone: the
    markers, and only they, disappear. *)
Theorem clean_text_bold (pre w post : str) :
  lacks SimpleTTS.star pre = true ->
  span_text SimpleTTS.star w = true ->
  SimpleTTS.clean_text
    (pre ++ [SimpleTTS.star; SimpleTTS.star] ++ w
     ++ [SimpleTTS.star; SimpleTTS.star] ++ post)
  = SimpleTTS.clean_text (pre ++ w ++ post).
Proof.
  intros Hpre Hw. rewrite !clean_text_passes. unfold remove_markup.
  rewrite (sub_bold SimpleTTS.star pre w post) by assumption.
  rewrite (sub_kept SimpleTTS.star pre w post) by assumption. reflexivity.
Qed.

Lemma clean_text_bold_witness :
  lacks SimpleTTS.star (Py.lit "Say ") = true
  /\ span_text SimpleTTS.star (Py.lit "buenos dias") = true
  /\ SimpleTTS.clean_text (Py.lit "Say **buenos dias** now")
     = SimpleTTS.clean_text (Py.lit "Say buenos dias now").
Proof.
  split; [reflexivity|]. split; [reflexivity|].
  apply (clean_text_bold (Py.lit "Say ") (Py.lit "buenos dias")
           (Py.lit " now")); reflexivity.
Defined.

(** X9: an italic span [*w*] with a non-empty text without asterisk and
    newline, after a text without asterisk and not followed by an
    asterisk, is cleaned like its text alone. *)
Theorem clean_text_italic (pre w post : str) :
  lacks SimpleTTS.star pre = true ->
  span_text SimpleTTS.star w = true -> w <> [] ->
  match post with
  | [] => true
  | y :: _ => negb (y =? SimpleTTS.star)%N
  end = true ->
  SimpleTTS.clean_text
    (pre ++ [SimpleTTS.star] ++ w ++ [SimpleTTS.star] ++ post)
  = SimpleTTS.clean_text (pre ++ w ++ post).
Proof.
  intros Hpre Hw Hne Hpost. rewrite !clean_text_passes. unfold remove_markup.
  rewrite (sub_italic SimpleTTS.star pre w post) by assumption.
  rewrite (sub_kept SimpleTTS.star pre w post) by assumption. reflexivity.
Qed.

Lemma clean_text_italic_witness :
  lacks SimpleTTS.star (Py.lit "Say ") = true
  /\ span_text SimpleTTS.star (Py.lit "hola") = true
  /\ Py.lit "hola" <> []
  /\ SimpleTTS.clean_text (Py.lit "Say *hola* now")
     = SimpleTTS.clean_text (Py.lit "Say hola now").
Proof.
  split; [reflexivity|]. split; [reflexivity|]. split; [discriminate|].
  apply (clean_text_italic (Py.lit "Say ") (Py.lit "hola") (Py.lit " now"));
    [reflexivity|reflexivity|discriminate|reflexivity].
Defined.

(** X10: in a text without asterisk, a span [__w__] whose text has no
    underscore and no newline, after a text without underscore, is cleaned
    like its text alone. *)
Theorem clean_text_underscore (pre w post : str) :
  lacks SimpleTTS.star
    (pre ++ [SimpleTTS.underscore; SimpleTTS.underscore] ++ w
     ++ [SimpleTTS.underscore; SimpleTTS.underscore] ++ post) = true ->
  lacks SimpleTTS.underscore pre = true ->
  span_text SimpleTTS.underscore w = true ->
  SimpleTTS.clean_text
    (pre ++ [SimpleTTS.underscore; SimpleTTS.underscore] ++ w
     ++ [SimpleTTS.underscore; SimpleTTS.underscore] ++ post)
  = SimpleTTS.clean_text (pre ++ w ++ post).
Proof.
  intros Hstar Hpre Hw. rewrite !clean_text_passes. unfold remove_markup.
  rewrite (emphasis_absent SimpleTTS.star) by exact Hstar.
  rewrite !lacks_app in Hstar.
  apply andb_true_iff in Hstar as [Hs1 Hstar].
  apply andb_true_iff in Hstar as [_ Hstar].
  apply andb_true_iff in Hstar as [Hs2 Hstar].
  apply andb_true_iff in Hstar as [_ Hs3].
  rewrite (emphasis_absent SimpleTTS.star (pre ++ w ++ post))
    by now rewrite !lacks_app, Hs1, Hs2, Hs3.
  rewrite (sub_bold SimpleTTS.underscore pre w post) by assumption.
  rewrite (sub_kept SimpleTTS.underscore pre w post) by assumption.
  reflexivity.
Qed.

Lemma clean_text_underscore_witness :
  lacks SimpleTTS.star (Py.lit "Say __hola__ now") = true
  /\ lacks SimpleTTS.underscore (Py.lit "Say ") = true
  /\ span_text SimpleTTS.underscore (Py.lit "hola") = true
  /\ SimpleTTS.clean_text (Py.lit "Say __hola__ now")
     = SimpleTTS.clean_text (Py.lit "Say hola now").
Proof.
  split; [reflexivity|]. split; [reflexivity|]. split; [reflexivity|].
  apply (clean_text_underscore (Py.lit "Say ") (Py.lit "hola")
           (Py.lit " now")); reflexivity.
Defined.

(** X11: in a text without asterisk and underscore, a link [[label](target)]
    whose label has no right bracket, whose target has no right
    parenthesis, both without newline, after a text without left bracket,
    is removed whole: neither the label nor the target is kept. *)
Theorem clean_text_link (pre label target post : str) :
  let text :=
    pre ++ [SimpleTTS.lbracket] ++ label
    ++ [SimpleTTS.rbracket; SimpleTTS.lparen] ++ target
    ++ [SimpleTTS.rparen] ++ post in
  lacks SimpleTTS.star text = true ->
  lacks SimpleTTS.underscore text = true ->
  lacks SimpleTTS.lbracket pre = true ->
  span_text SimpleTTS.rbracket label = true ->
  span_text SimpleTTS.rparen target = true ->
  SimpleTTS.clean_text text = SimpleTTS.clean_text (pre ++ post).
Proof.
  intros text Hstar Hunder Hpre Hlabel Htarget. subst text.
  rewrite !clean_text_passes. unfold remove_markup.
  rewrite (emphasis_absent SimpleTTS.star) by exact Hstar.
  rewrite (emphasis_absent SimpleTTS.underscore) by exact Hunder.
  rewrite !lacks_app in Hstar, Hunder.
  apply andb_true_iff in Hstar as [Hs1 Hstar].
  do 5 apply andb_true_iff in Hstar as [_ Hstar].
  apply andb_true_iff in Hunder as [Hu1 Hunder].
  do 5 apply andb_true_iff in Hunder as [_ Hunder].
  rewrite (emphasis_absent SimpleTTS.star (pre ++ post))
    by now rewrite lacks_app, Hs1, Hstar.
  rewrite (emphasis_absent SimpleTTS.underscore (pre ++ post))
    by now rewrite lacks_app, Hu1, Hunder.
  rewrite (sub_prefix SimpleTTS.link SimpleTTS.lbracket Re.nothing
             link_needs_bracket pre post) by exact Hpre.
  rewrite (sub_prefix SimpleTTS.link SimpleTTS.lbracket Re.nothing
             link_needs_bracket pre) by exact Hpre.
  f_equal. f_equal. f_equal. f_equal. f_equal.
  apply (sub_match SimpleTTS.link Re.nothing _ post None).
  - now apply (match_at_link label target post).
  - cbn [length app]. rewrite !length_app. cbn [length].
    rewrite !length_app. cbn [length]. lia.
Qed.

Lemma clean_text_link_witness :
  lacks SimpleTTS.star (Py.lit "See [the docs](http://x.y/z) now") = true
  /\ SimpleTTS.clean_text (Py.lit "See [the docs](http://x.y/z) now")
     = SimpleTTS.clean_text (Py.lit "See  now").
Proof.
  split; [reflexivity|].
  apply (clean_text_link (Py.lit "See ") (Py.lit "the docs")
           (Py.lit "http://x.y/z") (Py.lit " now")); reflexivity.
Defined.

(** X12: in a text without asterisk, underscore and left bracket, a code
    span between two backticks, without backtick and newline inside, after
    a text without backtick, is removed with its content. *)
Theorem clean_text_code (pre w post : str) :
  let text :=
    pre ++ [SimpleTTS.backtick] ++ w ++ [SimpleTTS.backtick] ++ post in
  lacks SimpleTTS.star text = true ->
  lacks SimpleTTS.underscore text = true ->
  lacks SimpleTTS.lbracket text = true ->
  lacks SimpleTTS.backtick pre = true ->
  span_text SimpleTTS.backtick w = true ->
  SimpleTTS.clean_text text = SimpleTTS.clean_text (pre ++ post).
Proof.
  intros text Hstar Hunder Hlink Hpre Hw. subst text.
  rewrite !clean_text_passes. unfold remove_markup.
  rewrite (emphasis_absent SimpleTTS.star) by exact Hstar.
  rewrite (emphasis_absent SimpleTTS.underscore) by exact Hunder.
  rewrite link_absent by exact Hlink.
  rewrite !lacks_app in Hstar, Hunder, Hlink.
  apply andb_true_iff in Hstar as [Hs1 Hstar].
  do 3 apply andb_true_iff in Hstar as [_ Hstar].
  apply andb_true_iff in Hunder as [Hu1 Hunder].
  do 3 apply andb_true_iff in Hunder as [_ Hunder].
  apply andb_true_iff in Hlink as [Hl1 Hlink].
  do 3 apply andb_true_iff in Hlink as [_ Hlink].
  rewrite (emphasis_absent SimpleTTS.star (pre ++ post))
    by now rewrite lacks_app, Hs1, Hstar.
  rewrite (emphasis_absent SimpleTTS.underscore (pre ++ post))
    by now rewrite lacks_app, Hu1, Hunder.
  rewrite (link_absent (pre ++ post)) by now rewrite lacks_app, Hl1, Hlink.
  rewrite (sub_prefix SimpleTTS.code SimpleTTS.backtick Re.nothing
             code_needs_backtick pre post) by exact Hpre.
  rewrite (sub_prefix SimpleTTS.code SimpleTTS.backtick Re.nothing
             code_needs_backtick pre) by exact Hpre.
  f_equal. f_equal. f_equal. f_equal.
  apply (sub_match SimpleTTS.code Re.nothing _ post None).
  - now apply (match_at_code w post).
  - cbn [length app]. rewrite !length_app. cbn [length]. lia.
Qed.

Lemma clean_text_code_witness :
  lacks SimpleTTS.backtick (Py.lit "Type ") = true
  /\ SimpleTTS.clean_text (Py.lit "Type `print(1)` now")
     = SimpleTTS.clean_text (Py.lit "Type  now").
Proof.
  split; [reflexivity|].
  apply (clean_text_code (Py.lit "Type ") (Py.lit "print(1)")
           (Py.lit " now")); reflexivity.
Defined.

(** ** The store: invariants of the handlers *)

Lemma fresh_not_in_heap (st : state) :
  heap st !! fresh (dom (heap st)) = None.
Proof. apply not_elem_of_dom, is_fresh. Qed.

Lemma store_inj_alloc (st : state) (k : str) (d : session_data) (o : io) :
  store_ok st ->
  store_inj {| heap := <[fresh (dom (heap st)) := d]> (heap st);
               user_sessions :=
                 <[k := fresh (dom (heap st))]> (user_sessions st);
               out := o |}.
Proof.
  intros [Hwf Hinj] k1 k2 l. cbn [user_sessions].
  rewrite !lookup_insert.
  destruct (decide (k = k1)) as [->|Hk1];
    destruct (decide (k1 = k2)) as [->|Hk12]; try reflexivity.
  - destruct (decide (k1 = k2)); [congruence|].
    intros [= <-] Hk2. apply Hwf in Hk2 as [d' Hd'].
    now rewrite fresh_not_in_heap in Hd'.
  - destruct (decide (k = k2)) as [->|Hk2].
    + intros Hl [= <-]. apply Hwf in Hl as [d' Hd'].
      now rewrite fresh_not_in_heap in Hd'.
    + apply Hinj.
Qed.

Lemma store_ok_alloc (st : state) (k : str) (d : session_data) (o : io) :
  store_ok st ->
  store_ok {| heap := <[fresh (dom (heap st)) := d]> (heap st);
              user_sessions :=
                <[k := fresh (dom (heap st))]> (user_sessions st);
              out := o |}.
Proof.
  intros Hok. split; [apply store_wf_alloc, Hok|now apply store_inj_alloc].
Qed.

Lemma store_ok_initial : store_ok initial_state.
Proof.
  split; [apply store_wf_initial|].
  intros k1 k2 l Hk. cbn in Hk. now rewrite lookup_empty in Hk.
Qed.

Lemma get_or_create_session_ok (w : world) (st : state)
    (session_id lang prof : str) :
  store_ok st ->
  store_ok (get_or_create_session w st session_id lang prof).2.
Proof.
  intros Hok. unfold get_or_create_session.
  destruct (user_sessions st !! session_id); [exact Hok|].
  destruct (SimpleAITutor.init w lang prof); [|exact Hok].
  cbn [SimpleTTS.init snd]. now apply store_ok_alloc.
Qed.

Lemma new_session_ok (w : world) (st : state) (lang prof : str) :
  store_ok st -> store_ok (new_session w st lang prof).2.
Proof.
  intros Hok. unfold new_session.
  destruct (SimpleAITutor.init w lang prof); [|exact Hok].
  cbn [SimpleTTS.init snd]. now apply store_ok_alloc.
Qed.

Lemma route_state (w : world) (st : state) (d : NewSession.data) :
  (NewSession.route w st d).2
  = (new_session w st
       (default (Py.lit "English") (NewSession.language d))
       (default (Py.lit "beginner") (NewSession.proficiency d))).2.
Proof. unfold NewSession.route. now destruct (new_session _ _ _ _) as [[]]. Qed.

Lemma chat_state (w : world) (st : state) (data : chat_data) :
  user_sessions (chat w st data).2
  = match chat_message data with
    | [] => user_sessions st
    | _ =>
        user_sessions
          (get_or_create_session w st (chat_session_id w data)
             (chat_language data) (chat_proficiency data)).2
    end.
Proof.
  unfold chat, chat_message.
  destruct (Py.strip _) as [|c user_message]; [reflexivity|].
  fold (chat_session_id w data) (chat_language data)
    (chat_proficiency data).
  destruct (get_or_create_session _ _ _ _ _) as [[l|e] st1]; [|reflexivity].
  destruct (heap st1 !! l) as [d|]; [|reflexivity].
  destruct (get_response _ _ _ _) as [[bot_response tutor] o].
  now destruct (if use_voice data && _ then _ else _).
Qed.

Lemma chat_ok (w : world) (st : state) (data : chat_data) :
  store_ok st -> store_ok (chat w st data).2.
Proof.
  intros Hok. split; [apply chat_wf, Hok|].
  intros k1 k2 l. rewrite chat_state.
  destruct (chat_message data); [apply Hok|].
  apply get_or_create_session_ok, Hok.
Qed.

Lemma reset_session_ok (st : state) (session_id : option str) :
  store_ok st -> store_ok (reset_session st session_id).2.
Proof.
  intros Hok. split; [apply reset_session_wf, Hok|].
  unfold reset_session. destruct (session_id ≫= _); apply Hok.
Qed.

Lemma cleanup_old_sessions_ok (w : world) (st : state) :
  store_ok st -> store_ok (cleanup_old_sessions w st).2.
Proof.
  intros Hok. split; [apply cleanup_old_sessions_wf, Hok|].
  intros k1 k2 l. rewrite !cleanup_lookup.
  destruct (user_sessions st !! k1) as [l1|] eqn:Hk1; [|discriminate].
  destruct (user_sessions st !! k2) as [l2|] eqn:Hk2; [|discriminate].
  destruct (expired st (time_time w) l1); [discriminate|].
  destruct (expired st (time_time w) l2); [discriminate|].
  intros [= <-] [= <-]. eapply (proj2 Hok); eassumption.
Qed.

Lemma store_ok_state_1 : store_ok state_1.
Proof. apply chat_ok, store_ok_initial. Qed.

Lemma store_ok_state_2 : store_ok state_2.
Proof. apply chat_ok, store_ok_state_1. Qed.

(** X13: every handler keeps the store well formed: each identifier of
    [user_sessions] refers to an object of the heap, and two identifiers
    never refer to the same object. *)
Theorem handlers_keep_store_ok (w : world) (st : state) (data : chat_data)
    (start : NewSession.data) (session_id : option str) :
  store_ok st ->
  store_ok (chat w st data).2
  /\ store_ok (NewSession.route w st start).2
  /\ store_ok (reset_session st session_id).2
  /\ store_ok (cleanup_old_sessions w st).2.
Proof.
  intros Hok. split; [|split; [|split]].
  - now apply chat_ok.
  - rewrite route_state. now apply new_session_ok.
  - now apply reset_session_ok.
  - now apply cleanup_old_sessions_ok.
Qed.

Lemma handlers_keep_store_ok_witness :
  store_ok initial_state
  /\ store_ok state_1
  /\ store_ok (cleanup_old_sessions offline_world state_1).2.
Proof.
  split; [apply store_ok_initial|].
  assert (Hone : store_ok state_1).
  { apply (handlers_keep_store_ok online_world initial_state
             (hola (Py.lit "s1"))
             {| NewSession.language := None; NewSession.proficiency := None |}
             None store_ok_initial). }
  split; [exact Hone|].
  apply (handlers_keep_store_ok offline_world state_1 (hola (Py.lit "s1"))
           {| NewSession.language := None; NewSession.proficiency := None |}
           None Hone).
Defined.

Lemma init_memory (w : world) (lang prof : str) (tutor : t) :
  SimpleAITutor.init w lang prof = Py.Return tutor ->
  memory tutor = [] /\ language tutor = lang /\ proficiency tutor = prof
  /\ groq_api_key tutor = GROQ_API_KEY w
  /\ Py.falsy (GROQ_API_KEY w) = false.
Proof.
  unfold SimpleAITutor.init. destruct (Py.falsy (GROQ_API_KEY w));
    [discriminate|].
  intros [= <-]. repeat split.
Qed.

Lemma get_response_keeps (w : world) (self : t) (user_message : str)
    (o : io) :
  let self' := (get_response w self user_message o).1.2 in
  language self' = language self
  /\ proficiency self' = proficiency self
  /\ groq_api_key self' = groq_api_key self
  /\ (length (memory self) <= 10 -> length (memory self') <= 10).
Proof.
  unfold get_response.
  destruct (groq_create w (messages self user_message)) as [[c|n|]|e|e];
    cbn [on_exception fst snd];
    try (repeat split; try (unfold add_to_memory; now destruct (10 <? _));
         intros _; rewrite add_to_memory_memory, last_n_length; lia).
  all: repeat split; auto.
Qed.

Lemma memory_bounded_alloc (st : state) (k : str) (d : session_data)
    (o : io) :
  memory_bounded st -> memory (ai_tutor d) = [] ->
  memory_bounded {| heap := <[fresh (dom (heap st)) := d]> (heap st);
                    user_sessions :=
                      <[k := fresh (dom (heap st))]> (user_sessions st);
                    out := o |}.
Proof.
  intros Hb Hd l d'. cbn [heap]. rewrite lookup_insert.
  destruct (decide (fresh (dom (heap st)) = l)).
  - intros [= <-]. rewrite Hd. cbn [length]. lia.
  - apply Hb.
Qed.

Lemma get_or_create_session_bounded (w : world) (st : state)
    (session_id lang prof : str) :
  memory_bounded st ->
  memory_bounded (get_or_create_session w st session_id lang prof).2.
Proof.
  intros Hb. unfold get_or_create_session.
  destruct (user_sessions st !! session_id); [exact Hb|].
  destruct (SimpleAITutor.init w lang prof) as [tutor|e] eqn:Hinit;
    [|exact Hb].
  cbn [SimpleTTS.init snd]. apply memory_bounded_alloc; [exact Hb|].
  now apply init_memory in Hinit.
Qed.

(** The steps of [chat] for a message that is not blank. *)
Ltac chat_steps w st data c user_message l e st1 d bot_response tutor o
    audio_data o' Hget Hd Hresp Hvoice :=
  unfold chat;
  fold (chat_message data) (chat_session_id w data) (chat_language data)
    (chat_proficiency data);
  destruct (chat_message data) as [|c user_message];
  [|destruct (get_or_create_session w st (chat_session_id w data)
               (chat_language data) (chat_proficiency data))
      as [[l|e] st1] eqn:Hget;
    [destruct (heap st1 !! l) as [d|] eqn:Hd;
     [destruct (get_response w (ai_tutor d) (c :: user_message) (out st1))
        as [[bot_response tutor] o] eqn:Hresp;
      destruct (if use_voice data
                   && negb (Py.falsy (SimpleTTS.api_key (tts d)))
                then SimpleTTS.text_to_speech w (tts d) bot_response o
                else (None, o)) as [audio_data o'] eqn:Hvoice| ]| ]].

(** X14: every handler keeps every memory of the store at 10 records at
    most. *)
Theorem handlers_keep_memory_bounded (w : world) (st : state)
    (data : chat_data) (start : NewSession.data)
    (session_id : option str) :
  memory_bounded st ->
  memory_bounded (chat w st data).2
  /\ memory_bounded (NewSession.route w st start).2
  /\ memory_bounded (reset_session st session_id).2
  /\ memory_bounded (cleanup_old_sessions w st).2.
Proof.
  intros Hb. split; [|split; [|split]].
  - pose proof (get_or_create_session_bounded w st (chat_session_id w data)
                  (chat_language data) (chat_proficiency data) Hb) as Hb1.
    chat_steps w st data c user_message l e st1 d bot_response tutor o
      audio_data o' Hget Hd Hresp Hvoice; cbn [snd] in *; try assumption.
    intros l' d'. cbn [heap]. rewrite lookup_insert.
    destruct (decide (l = l')) as [<-|]; [|apply Hb1].
    intros [= <-]. cbn [ai_tutor set_ai_tutor].
    pose proof (get_response_keeps w (ai_tutor d) (c :: user_message)
                  (out st1)) as (_ & _ & _ & Hlen).
    rewrite Hresp in Hlen. cbn [fst snd] in Hlen. apply Hlen.
    now apply (Hb1 l d).
  - rewrite route_state. unfold new_session.
    destruct (SimpleAITutor.init w _ _) as [tutor|e] eqn:Hinit; [|exact Hb].
    cbn [SimpleTTS.init snd]. apply memory_bounded_alloc; [exact Hb|].
    now apply init_memory in Hinit.
  - unfold reset_session. destruct (session_id ≫= _) as [l|]; [|exact Hb].
    intros l' d'. cbn [snd heap]. rewrite lookup_alter.
    destruct (decide (l = l')) as [<-|]; [|apply Hb].
    destruct (heap st !! l) as [d|]; [|discriminate].
    intros [= <-]. cbn. lia.
  - exact Hb.
Qed.

Lemma handlers_keep_memory_bounded_witness :
  memory_bounded initial_state /\ memory_bounded state_1.
Proof.
  assert (Hinit : memory_bounded initial_state).
  { intros l d Hl. cbn in Hl. now rewrite lookup_empty in Hl. }
  split; [exact Hinit|].
  apply (handlers_keep_memory_bounded online_world initial_state
           (hola (Py.lit "s1"))
           {| NewSession.language := None; NewSession.proficiency := None |}
           None Hinit).
Defined.

(** ** The store: what a turn changes *)

Lemma get_or_create_session_heap (w : world) (st : state)
    (session_id lang prof : str) (l : loc) (d : session_data) :
  heap st !! l = Some d ->
  heap (get_or_create_session w st session_id lang prof).2 !! l = Some d.
Proof.
  intros Hd. unfold get_or_create_session.
  destruct (user_sessions st !! session_id); [exact Hd|].
  destruct (SimpleAITutor.init w lang prof); [|exact Hd].
  cbn [SimpleTTS.init snd heap]. rewrite lookup_insert_ne; [exact Hd|].
  intros Heq. rewrite <- Heq, fresh_not_in_heap in Hd. discriminate.
Qed.

Lemma get_or_create_session_frame (w : world) (st : state)
    (session_id lang prof k : str) (l : loc) :
  store_ok st -> user_sessions st !! k = Some l -> k <> session_id ->
  user_sessions (get_or_create_session w st session_id lang prof).2 !! k
  = Some l
  /\ heap (get_or_create_session w st session_id lang prof).2 !! l
     = heap st !! l
  /\ (get_or_create_session w st session_id lang prof).1 <> Py.Return l.
Proof.
  intros [Hwf Hinj] Hk Hne. unfold get_or_create_session.
  destruct (user_sessions st !! session_id) as [l0|] eqn:Hsid.
  - repeat split; [exact Hk|]. cbn [fst]. intros [= ->].
    apply Hne. now apply (Hinj k session_id l).
  - destruct (SimpleAITutor.init w lang prof); [|repeat split; easy].
    cbn [SimpleTTS.init fst snd heap user_sessions].
    destruct (Hwf k l Hk) as [d Hd].
    assert (Hfresh : fresh (dom (heap st)) <> l).
    { intros Heq. rewrite <- Heq, fresh_not_in_heap in Hd. discriminate. }
    rewrite !lookup_insert_ne by congruence.
    repeat split; [exact Hk|]. intros [= Heq]. now apply Hfresh.
Qed.

(** X15: a turn on one session leaves every other session as it was: its
    identifier refers to the same object and the object (memory,
    configuration, creation time) is unchanged. *)
Theorem chat_leaves_other_sessions (w : world) (st : state)
    (data : chat_data) (k : str) (l : loc) :
  store_ok st ->
  user_sessions st !! k = Some l ->
  k <> chat_session_id w data ->
  user_sessions (chat w st data).2 !! k = Some l
  /\ heap (chat w st data).2 !! l = heap st !! l.
Proof.
  intros Hok Hk Hne.
  destruct (get_or_create_session_frame w st (chat_session_id w data)
              (chat_language data) (chat_proficiency data) k l Hok Hk Hne)
    as (Hk1 & Hl1 & Hret).
  chat_steps w st data c user_message l0 e st1 d bot_response tutor o
    audio_data o' Hget Hd Hresp Hvoice; cbn [fst snd] in *;
    try (split; assumption).
  - split; [exact Hk|reflexivity].
  - cbn [user_sessions heap]. split; [exact Hk1|].
    rewrite lookup_insert_ne; [exact Hl1|]. congruence.
Qed.

Lemma chat_leaves_other_sessions_witness :
  user_sessions state_1 !! Py.lit "s1" = Some 1%positive
  /\ Py.lit "s1" <> chat_session_id later_world (hola (Py.lit "s2"))
  /\ user_sessions state_2 !! Py.lit "s1" = Some 1%positive
  /\ heap state_2 !! 1%positive = heap state_1 !! 1%positive.
Proof.
  split; [vm_compute; reflexivity|]. split; [discriminate|].
  apply (chat_leaves_other_sessions later_world state_1 (hola (Py.lit "s2"))
           (Py.lit "s1") 1%positive).
  - exact store_ok_state_1.
  - vm_compute. reflexivity.
  - discriminate.
Defined.

Lemma get_or_create_session_raises (w : world) (st st1 : state)
    (session_id lang prof e : str) :
  get_or_create_session w st session_id lang prof = (Py.Raise e, st1) ->
  Py.falsy (GROQ_API_KEY w) = true
  /\ user_sessions st !! session_id = None
  /\ e = Py.lit "GROQ_API_KEY not found in environment variables"
  /\ st1 = st.
Proof.
  unfold get_or_create_session, SimpleAITutor.init.
  destruct (user_sessions st !! session_id); [discriminate|].
  destruct (Py.falsy (GROQ_API_KEY w)); [|discriminate].
  intros [= <- <-]. repeat split.
Qed.

(** X16: a turn with a message that is not blank, in a world with the Groq
    key whose completion returns the text [c], is answered with [c]
    stripped, and afterwards the session of the reply has as its last
    record the stripped message with [c] as it was returned. *)
Theorem chat_stores_exchange (w : world) (st : state) (data : chat_data)
    (c : str) :
  store_ok st ->
  chat_message data <> [] ->
  Py.falsy (GROQ_API_KEY w) = false ->
  (forall m, groq_create w m = Completed (Py.Str c)) ->
  exists l d audio_data,
    (chat w st data).1
    = ChatReply (chat_session_id w data) (Py.strip c) audio_data
        (chat_language data) (chat_proficiency data)
    /\ user_sessions (chat w st data).2 !! chat_session_id w data = Some l
    /\ heap (chat w st data).2 !! l = Some d
    /\ last (memory (ai_tutor d))
       = Some {| user := chat_message data; ai := Py.Str c |}.
Proof.
  intros [Hwf _] Hmsg Hkey Hgroq.
  destruct (get_or_create_session_wf w st (chat_session_id w data)
              (chat_language data) (chat_proficiency data) Hwf)
    as [Hwf1 Hbound].
  chat_steps w st data x user_message l e st1 d bot_response tutor o
    audio_data o' Hget Hd Hresp Hvoice; cbn [fst snd] in *.
  - congruence.
  - unfold get_response in Hresp. rewrite Hgroq in Hresp.
    injection Hresp as <- <- <-.
    exists l, (set_ai_tutor (add_to_memory (ai_tutor d) (x :: user_message)
                               (Py.Str c)) d), audio_data.
    cbn [heap user_sessions]. split; [reflexivity|].
    split; [now apply Hbound|]. split; [apply lookup_insert_eq|].
    cbn [ai_tutor set_ai_tutor]. rewrite add_to_memory_memory.
    apply last_n_snoc_last. lia.
  - destruct (Hwf1 (chat_session_id w data) l (Hbound l eq_refl)) as [d Hd'].
    congruence.
  - apply get_or_create_session_raises in Hget as [Hfalsy _]. congruence.
Qed.

Lemma chat_stores_exchange_witness :
  exists l d audio_data,
    (chat later_world state_1 (bonjour (Py.lit "s1"))).1
    = ChatReply (Py.lit "s1") (Py.lit "Hola! Que tal?") audio_data
        (Py.lit "French") (Py.lit "advanced")
    /\ user_sessions (chat later_world state_1 (bonjour (Py.lit "s1"))).2
       !! Py.lit "s1" = Some l
    /\ heap (chat later_world state_1 (bonjour (Py.lit "s1"))).2 !! l
       = Some d
    /\ last (memory (ai_tutor d))
       = Some {| user := Py.lit "Bonjour";
                 ai := Py.Str (Py.lit " Hola! Que tal? ") |}.
Proof.
  apply (chat_stores_exchange later_world state_1 (bonjour (Py.lit "s1"))
           (Py.lit " Hola! Que tal? ")).
  - exact store_ok_state_1.
  - discriminate.
  - reflexivity.
  - reflexivity.
Defined.

(** X17: without the Groq key, a turn under an identifier that is not in
    the store is answered with status 500 and the message of the
    [ValueError]; no session is created and the state is unchanged. *)
Theorem chat_without_groq_key (w : world) (st : state) (data : chat_data) :
  Py.falsy (GROQ_API_KEY w) = true ->
  chat_message data <> [] ->
  user_sessions st !! chat_session_id w data = None ->
  chat w st data
  = (Error 500 (Py.lit "GROQ_API_KEY not found in environment variables"),
     st).
Proof.
  intros Hkey Hmsg Hnew. unfold chat.
  fold (chat_message data) (chat_session_id w data) (chat_language data)
    (chat_proficiency data).
  destruct (chat_message data); [congruence|].
  unfold get_or_create_session, SimpleAITutor.init. now rewrite Hnew, Hkey.
Qed.

Lemma chat_without_groq_key_witness :
  Py.falsy (GROQ_API_KEY keyless_world) = true
  /\ chat keyless_world state_1 (hola (Py.lit "s2"))
     = (Error 500
          (Py.lit "GROQ_API_KEY not found in environment variables"),
        state_1).
Proof.
  split; [reflexivity|].
  apply (chat_without_groq_key keyless_world state_1 (hola (Py.lit "s2")));
    [reflexivity|discriminate|vm_compute; reflexivity].
Defined.

Lemma get_or_create_session_calls (w : world) (st : state)
    (session_id lang prof : str) :
  calls (out (get_or_create_session w st session_id lang prof).2)
  = calls (out st).
Proof.
  unfold get_or_create_session.
  destruct (user_sessions st !! session_id); [reflexivity|].
  destruct (SimpleAITutor.init w lang prof); [|reflexivity].
  cbn [SimpleTTS.init snd out]. now destruct (Py.falsy (DEEPGRAM_API_KEY w)).
Qed.

Lemma get_response_calls (w : world) (self : t) (user_message : str)
    (o : io) :
  calls (get_response w self user_message o).2
  = calls o
    ++ match groq_create w (messages self user_message) with
       | NotCalled _ => []
       | _ => [GroqCall (messages self user_message)]
       end.
Proof.
  unfold get_response.
  destruct (groq_create w (messages self user_message)) as [[?|?|]|?|?];
    cbn [on_exception snd print call calls]; [reflexivity ..|].
  now rewrite app_nil_r.
Qed.

Lemma serving_tutor_created (w : world) (st st1 : state)
    (data : chat_data) (l : loc) (d : session_data) :
  get_or_create_session w st (chat_session_id w data) (chat_language data)
    (chat_proficiency data) = (Py.Return l, st1) ->
  heap st1 !! l = Some d ->
  serving_tutor w st data = Some (ai_tutor d).
Proof.
  unfold get_or_create_session, serving_tutor.
  destruct (user_sessions st !! chat_session_id w data) as [l0|].
  - intros [= <- <-] Hd. now rewrite Hd.
  - destruct (SimpleAITutor.init w _ _) as [tutor|e]; [|discriminate].
    cbn [SimpleTTS.init]. intros [= <- <-]. cbn [heap].
    rewrite lookup_insert_eq. now intros [= <-].
Qed.

(** X18: a turn that does not ask for voice carries no audio and sends at
    most one request, to the completion provider: none when the turn is
    refused or when the import or the client constructor raised, else
    exactly one, whose system message is [get_system_prompt] of the tutor
    of the session as it is before the turn (the new tutor for a new
    session) and whose user message is the stripped message. *)
Theorem chat_provider_calls (w : world) (st : state) (data : chat_data) :
  use_voice data = false ->
  match chat w st data with
  | (ChatReply _ _ audio_data _ _, st') =>
      audio_data = None
      /\ exists tutor,
           serving_tutor w st data = Some tutor
           /\ calls (out st')
              = calls (out st)
                ++ match
                     groq_create w
                       [ (Py.lit "system", get_system_prompt tutor);
                         (Py.lit "user", chat_message data) ]
                   with
                   | NotCalled _ => []
                   | _ =>
                       [GroqCall
                          [ (Py.lit "system", get_system_prompt tutor);
                            (Py.lit "user", chat_message data) ]]
                   end
  | (_, st') => calls (out st') = calls (out st)
  end.
Proof.
  intros Hvoiceless.
  pose proof (get_or_create_session_calls w st (chat_session_id w data)
                (chat_language data) (chat_proficiency data)) as Hcalls.
  chat_steps w st data c user_message l e st1 d bot_response tutor o
    audio_data o' Hget Hd Hresp Hvoice; cbn [fst snd out] in *;
    try assumption; try reflexivity.
  rewrite Hvoiceless in Hvoice. cbn [andb] in Hvoice.
  injection Hvoice as <- <-. split; [reflexivity|].
  exists (ai_tutor d).
  split; [now apply (serving_tutor_created w st st1 data l d)|].
  pose proof (get_response_calls w (ai_tutor d) (c :: user_message) (out st1))
    as Hsent.
  rewrite Hresp in Hsent. cbn [snd] in Hsent. now rewrite Hsent, Hcalls.
Qed.

(** The first turn of a new Spanish session: the one request sent carries
    the prompt below, whose context is the start-of-conversation
    sentence. *)
Lemma chat_provider_calls_witness :
  use_voice (hola (Py.lit "s1")) = false
  /\ match chat online_world initial_state (hola (Py.lit "s1")) with
     | (ChatReply _ _ audio_data _ _, st') =>
         audio_data = None
         /\ exists tutor,
              serving_tutor online_world initial_state (hola (Py.lit "s1"))
              = Some tutor
              /\ calls (out st')
                 = calls (out initial_state)
                   ++ match
                        groq_create online_world
                          [ (Py.lit "system", get_system_prompt tutor);
                            (Py.lit "user",
                             chat_message (hola (Py.lit "s1"))) ]
                      with
                      | NotCalled _ => []
                      | _ =>
                          [GroqCall
                             [ (Py.lit "system", get_system_prompt tutor);
                               (Py.lit "user",
                                chat_message (hola (Py.lit "s1"))) ]]
                      end
     | (_, st') => calls (out st') = calls (out initial_state)
     end
  /\ calls (out (chat online_world initial_state (hola (Py.lit "s1"))).2)
     = [GroqCall
          [ (Py.lit "system",
             Py.join [Py.newline]
               [ Py.lit
                   "You are Lingo AI, a friendly AI language tutor for Spanish at beginner level.";
                 [];
                 Py.lit "Your role:";
                 Py.lit "1. Help users learn Spanish";
                 Py.lit "2. Correct grammar and vocabulary errors gently";
                 Py.lit "3. Provide explanations for language rules";
                 Py.lit "4. Have natural conversations";
                 Py.lit
                   "5. Adapt to the user's proficiency level (beginner)";
                 [];
                 Py.lit "Guidelines:";
                 Py.lit "- Keep responses concise (max 3-4 sentences)";
                 Py.lit
                   "- Use simple language for beginners, more complex for advanced";
                 Py.lit
                   "- Always provide translations when introducing new words";
                 Py.lit "- Give examples to illustrate points";
                 Py.lit "- Be encouraging and positive";
                 [];
                 Py.lit
                   "Current conversation context: This is the start of the conversation."
               ]);
            (Py.lit "user", Py.lit "Hola") ]].
Proof.
  split; [reflexivity|]. split.
  - apply (chat_provider_calls online_world initial_state
             (hola (Py.lit "s1"))).
    reflexivity.
  - vm_compute. reflexivity.
Defined.

(** X19: a turn never changes the configuration of a session that exists:
    its language, proficiency, key, TTS object and creation time stay as
    they were at creation, whatever language and proficiency the request
    carries; the reply nevertheless echoes those of the request. *)
Theorem chat_keeps_configuration (w : world) (st : state) (data : chat_data)
    (l : loc) (d : session_data) :
  heap st !! l = Some d ->
  (exists d',
     heap (chat w st data).2 !! l = Some d'
     /\ language (ai_tutor d') = language (ai_tutor d)
     /\ proficiency (ai_tutor d') = proficiency (ai_tutor d)
     /\ groq_api_key (ai_tutor d') = groq_api_key (ai_tutor d)
     /\ tts d' = tts d
     /\ created_at d' = created_at d)
  /\ match (chat w st data).1 with
     | ChatReply _ _ _ lang prof =>
         lang = chat_language data /\ prof = chat_proficiency data
     | _ => True
     end.
Proof.
  intros Hl.
  pose proof (get_or_create_session_heap w st (chat_session_id w data)
                (chat_language data) (chat_proficiency data) l d Hl) as Hl1.
  chat_steps w st data c user_message l0 e st1 d0 bot_response tutor o
    audio_data o' Hget Hd Hresp Hvoice; cbn [fst snd] in *;
    try (split; [exists d; repeat split; assumption|exact I]).
  split; [|split; reflexivity]. cbn [heap]. rewrite lookup_insert.
  destruct (decide (l0 = l)) as [->|Hne].
  - assert (d0 = d) as -> by congruence.
    pose proof (get_response_keeps w (ai_tutor d) (c :: user_message)
                  (out st1)) as (Hlang & Hprof & Hkey & _).
    rewrite Hresp in Hlang, Hprof, Hkey. cbn [fst snd] in *.
    eexists. split; [reflexivity|]. cbn [ai_tutor set_ai_tutor tts created_at].
    repeat split; assumption.
  - exists d. repeat split; assumption.
Qed.

Lemma chat_keeps_configuration_witness :
  exists d d',
    heap state_1 !! 1%positive = Some d
    /\ heap (chat later_world state_1 (bonjour (Py.lit "s1"))).2 !! 1%positive
       = Some d'
    /\ language (ai_tutor d') = Py.lit "Spanish"
    /\ proficiency (ai_tutor d') = Py.lit "beginner"
    /\ match (chat later_world state_1 (bonjour (Py.lit "s1"))).1 with
       | ChatReply _ _ _ lang prof =>
           lang = Py.lit "French" /\ prof = Py.lit "advanced"
       | _ => True
       end.
Proof.
  destruct (heap state_1 !! 1%positive) as [d|] eqn:Hd;
    [|vm_compute in Hd; discriminate].
  destruct (chat_keeps_configuration later_world state_1
              (bonjour (Py.lit "s1")) 1%positive d Hd)
    as [(d' & Hd' & Hlang & Hprof & _) Hecho].
  exists d, d'. split; [reflexivity|]. split; [exact Hd'|].
  rewrite Hlang, Hprof.
  assert (Hconf : language (ai_tutor d) = Py.lit "Spanish"
                  /\ proficiency (ai_tutor d) = Py.lit "beginner").
  { vm_compute in Hd. injection Hd as <-. split; reflexivity. }
  destruct Hconf as [-> ->].
  split; [reflexivity|]. split; [reflexivity|]. exact Hecho.
Defined.

(** ** Sessions: creation, expiry and reset *)

(** X20: for an identifier that is not in the store, [get_or_create_session]
    raises when the Groq key is missing and leaves the state unchanged;
    with the key it binds the identifier to a location that was free, whose
    new object has an empty memory, the language and proficiency passed and
    the current time; every other identifier and object is untouched. *)
Theorem get_or_create_session_new (w : world) (st : state)
    (session_id lang prof : str) :
  user_sessions st !! session_id = None ->
  if Py.falsy (GROQ_API_KEY w)
  then get_or_create_session w st session_id lang prof
       = (Py.Raise
            (Py.lit "GROQ_API_KEY not found in environment variables"), st)
  else exists l d st',
      get_or_create_session w st session_id lang prof = (Py.Return l, st')
      /\ heap st !! l = None
      /\ user_sessions st' = <[session_id := l]> (user_sessions st)
      /\ heap st' = <[l := d]> (heap st)
      /\ memory (ai_tutor d) = []
      /\ language (ai_tutor d) = lang
      /\ proficiency (ai_tutor d) = prof
      /\ created_at d = time_time w
      /\ SimpleTTS.api_key (tts d) = DEEPGRAM_API_KEY w
      /\ calls (out st') = calls (out st).
Proof.
  intros Hnew. unfold get_or_create_session, SimpleAITutor.init.
  rewrite Hnew. destruct (Py.falsy (GROQ_API_KEY w)); [reflexivity|].
  cbn [SimpleTTS.init]. eexists _, _, _. split; [reflexivity|].
  split; [apply fresh_not_in_heap|]. cbn.
  repeat split. now destruct (Py.falsy (DEEPGRAM_API_KEY w)).
Qed.

Lemma get_or_create_session_new_witness :
  user_sessions state_1 !! Py.lit "s2" = None
  /\ exists l d st',
      get_or_create_session later_world state_1 (Py.lit "s2")
        (Py.lit "French") (Py.lit "advanced") = (Py.Return l, st')
      /\ heap state_1 !! l = None
      /\ user_sessions st' = <[Py.lit "s2" := l]> (user_sessions state_1)
      /\ heap st' = <[l := d]> (heap state_1)
      /\ memory (ai_tutor d) = []
      /\ language (ai_tutor d) = Py.lit "French"
      /\ proficiency (ai_tutor d) = Py.lit "advanced"
      /\ created_at d = time_time later_world
      /\ SimpleTTS.api_key (tts d) = DEEPGRAM_API_KEY later_world
      /\ calls (out st') = calls (out state_1).
Proof.
  split; [vm_compute; reflexivity|].
  apply (get_or_create_session_new later_world state_1 (Py.lit "s2")
           (Py.lit "French") (Py.lit "advanced")).
  vm_compute. reflexivity.
Defined.

(** X21: an expired session is not found again after the sweep: asking for
    its identifier creates a new object, at another location, with an
    empty memory and the configuration and time of the new request. *)
Theorem expired_session_starts_afresh (w w' : world) (st : state)
    (session_id lang prof : str) (l : loc) :
  store_ok st ->
  user_sessions st !! session_id = Some l ->
  expired st (time_time w) l = true ->
  Py.falsy (GROQ_API_KEY w') = false ->
  exists l' d st',
    get_or_create_session w' (cleanup_old_sessions w st).2 session_id
      lang prof = (Py.Return l', st')
    /\ l' <> l
    /\ heap st' !! l' = Some d
    /\ memory (ai_tutor d) = []
    /\ language (ai_tutor d) = lang
    /\ proficiency (ai_tutor d) = prof
    /\ created_at d = time_time w'.
Proof.
  intros [Hwf _] Hl Hexp Hkey.
  assert (Hgone : user_sessions (cleanup_old_sessions w st).2 !! session_id
                  = None) by now rewrite cleanup_lookup, Hl, Hexp.
  unfold get_or_create_session, SimpleAITutor.init. rewrite Hgone, Hkey.
  cbn [SimpleTTS.init]. eexists _, _, _. split; [reflexivity|].
  split.
  - intros Heq. destruct (Hwf session_id l Hl) as [d Hd].
    pose proof (fresh_not_in_heap (cleanup_old_sessions w st).2) as Hfresh.
    rewrite Heq in Hfresh. cbn [cleanup_old_sessions snd heap] in Hfresh.
    congruence.
  - cbn [heap]. rewrite lookup_insert_eq. repeat split.
Qed.

Lemma expired_session_starts_afresh_witness :
  user_sessions state_2 !! Py.lit "s1" = Some 1%positive
  /\ expired state_2 (time_time offline_world) 1%positive = true
  /\ exists l' d st',
      get_or_create_session online_world
        (cleanup_old_sessions offline_world state_2).2 (Py.lit "s1")
        (Py.lit "German") (Py.lit "advanced") = (Py.Return l', st')
      /\ l' <> 1%positive
      /\ heap st' !! l' = Some d
      /\ memory (ai_tutor d) = []
      /\ language (ai_tutor d) = Py.lit "German"
      /\ proficiency (ai_tutor d) = Py.lit "advanced"
      /\ created_at d = time_time online_world.
Proof.
  split; [vm_compute; reflexivity|]. split; [vm_compute; reflexivity|].
  apply (expired_session_starts_afresh offline_world online_world state_2
           (Py.lit "s1") (Py.lit "German") (Py.lit "advanced") 1%positive).
  - exact store_ok_state_2.
  - vm_compute. reflexivity.
  - vm_compute. reflexivity.
  - reflexivity.
Defined.

(** X22: [reset_session] is idempotent: a second reset of the same
    identifier gives the same answer and leaves the state as the first
    reset left it. *)
Theorem reset_session_idempotent (st : state) (session_id : option str) :
  reset_session (reset_session st session_id).2 session_id
  = reset_session st session_id.
Proof.
  unfold reset_session.
  destruct (session_id ≫= (fun k => user_sessions st !! k)) as [l|] eqn:Hl;
    cbn [snd user_sessions]; rewrite Hl; [|reflexivity].
  cbn [heap out]. f_equal. f_equal.
  rewrite alter_alter_eq. apply alter_ext. reflexivity.
Qed.

(** X23: after a reset the session starts over: its context is the
    start-of-conversation sentence, so its system prompt is the one of a
    session that has just been created with the same configuration. *)
Theorem reset_session_restarts_context (st : state) (session_id : str)
    (l : loc) (d : session_data) :
  user_sessions st !! session_id = Some l ->
  heap st !! l = Some d ->
  exists d',
    heap (reset_session st (Some session_id)).2 !! l = Some d'
    /\ get_memory_context (ai_tutor d') = start_of_conversation
    /\ get_system_prompt (ai_tutor d')
       = get_system_prompt
           {| groq_api_key := groq_api_key (ai_tutor d);
              language := language (ai_tutor d);
              proficiency := proficiency (ai_tutor d);
              memory := [] |}.
Proof.
  intros Hl Hd. unfold reset_session. cbn [mbind option_bind]. rewrite Hl.
  cbn [snd heap]. rewrite lookup_alter_eq, Hd. cbn [fmap option_fmap option_map].
  eexists. split; [reflexivity|]. split; reflexivity.
Qed.

Lemma reset_session_restarts_context_witness :
  user_sessions state_1 !! Py.lit "s1" = Some 1%positive
  /\ exists d',
      heap (reset_session state_1 (Some (Py.lit "s1"))).2 !! 1%positive
      = Some d'
      /\ get_memory_context (ai_tutor d') = start_of_conversation.
Proof.
  split; [vm_compute; reflexivity|].
  destruct (heap state_1 !! 1%positive) as [d|] eqn:Hd;
    [|vm_compute in Hd; discriminate].
  destruct (reset_session_restarts_context state_1 (Py.lit "s1") 1%positive d)
    as (d' & Hd' & Hctx & _); [vm_compute; reflexivity|exact Hd|].
  exists d'. split; [exact Hd'|exact Hctx].
Defined.


(** ** text_to_speech *)

Lemma model_for_table (language : str) :
  SimpleTTS.model_for language
  = dict_get models language (Py.lit "aura-asteria-en").
Proof.
  unfold SimpleTTS.model_for, models. cbn [dict_get].
  destruct (decide (language = Py.lit "English")) as [->|Hen];
    [vm_compute; reflexivity|].
  destruct (decide (Py.lit "English" = language)) as [Heq|_];
    [now elim Hen|].
  destruct (decide (language = Py.lit "Spanish")) as [->|Hes];
    [vm_compute; reflexivity|].
  destruct (decide (Py.lit "Spanish" = language)) as [Heq|_];
    [now elim Hes|].
  destruct (decide (language = Py.lit "French")) as [->|Hfr];
    [vm_compute; reflexivity|].
  destruct (decide (Py.lit "French" = language)) as [Heq|_];
    [now elim Hfr|].
  destruct (decide (language = Py.lit "German")) as [->|Hde];
    [vm_compute; reflexivity|].
  destruct (decide (Py.lit "German" = language)) as [Heq|_];
    [now elim Hde|].
  reflexivity.
Qed.

(** X25: [text_to_speech] sends nothing and returns [None] when the
    Deepgram key is missing or the text is blank. Otherwise it sends one
    request, for the model that the [models] table gives for the language
    (the English one for a language that is not in the table), with the
    cleaned text, which has at most 500 characters; it returns audio only
    when the provider answers with status 200, and then the base64 text of
    the content. *)
Theorem text_to_speech_spec (w : world) (self : SimpleTTS.t) (text : str)
    (o : io) :
  let url :=
    Py.lit "https://api.deepgram.com/v1/speak?model="
    ++ dict_get models (SimpleTTS.language self) (Py.lit "aura-asteria-en") in
  let '(audio, o') := SimpleTTS.text_to_speech w self text o in
  match Py.falsy (SimpleTTS.api_key self), Py.strip text with
  | false, _ :: _ =>
      calls o' = calls o ++ [DeepgramCall url (SimpleTTS.clean_text text)]
      /\ length (SimpleTTS.clean_text text) <= 500
      /\ forall a, audio = Some a ->
           exists content body,
             requests_post w url (SimpleTTS.clean_text text)
             = Response 200 content body
             /\ a = Py.b64encode content
  | _, _ => audio = None /\ o' = o
  end.
Proof.
  intros url. subst url. rewrite <- model_for_table.
  unfold SimpleTTS.text_to_speech.
  destruct (Py.falsy (SimpleTTS.api_key self)); [now split|].
  destruct (Py.strip text) as [|c stripped]; [now split|].
  cbn [Py.falsy orb].
  destruct (requests_post w _ _) as [status content body|e];
    [destruct (status =? 200) eqn:Hok|];
    (split; [reflexivity|split; [apply clean_text_shape|]]);
    intros a; try discriminate.
  intros [= <-]. apply Nat.eqb_eq in Hok as ->. now exists content, body.
Qed.

(** X26: the languages that [get_languages] announces with TTS support are
    exactly the keys of the [models] table of [text_to_speech]: the names
    of the entries with [tts_supported] are the keys of the table (English,
    Spanish, French, German), every entry is announced with TTS support if
    and only if its name is a key, and every key is the name of an entry
    announced with TTS support. For each of the other entries
    [text_to_speech] uses the English model. *)
Theorem tts_languages_match_models :
  name <$> filter (fun entry => tts_supported entry = true) get_languages
  = models.*1
  /\ models.*1
     = [ Py.lit "English"; Py.lit "Spanish"; Py.lit "French";
         Py.lit "German" ]
  /\ Forall
       (fun entry =>
          tts_supported entry = bool_decide (name entry ∈ models.*1)
          /\ (if tts_supported entry then True
              else SimpleTTS.model_for (name entry)
                   = Py.lit "aura-asteria-en"))
       get_languages
  /\ Forall
       (fun key =>
          bool_decide
            (key ∈ name
                    <$> filter (fun entry => tts_supported entry = true)
                          get_languages) = true)
       models.*1.
Proof.
  split; [vm_compute; reflexivity|]. split; [vm_compute; reflexivity|].
  split.
  - unfold get_languages.
    repeat (constructor; [vm_compute; split; reflexivity|]).
    constructor.
  - unfold models. cbn [fmap list_fmap fst].
    repeat (constructor; [vm_compute; reflexivity|]).
    constructor.
Qed.

(** ** clean_text: when a second pass changes nothing *)

(** *** What a match consumes *)

Lemma lazy_any_inv {R} (K : str -> option str -> option R) (fuel : nat)
    (t : str) (g : option str) (x : R) :
  Re.lazy (fun s g k => Re.run Re.Any s g k) K fuel t g = Some x ->
  exists w t', t = w ++ t' /\ K t' g = Some x.
Proof.
  revert t. induction fuel as [|fuel IH]; intros t Hlazy; cbn [Re.lazy] in Hlazy.
  - destruct (K t g) eqn:HK; [|discriminate].
    injection Hlazy as <-. now exists [], t.
  - destruct (K t g) eqn:HK.
    + injection Hlazy as <-. now exists [], t.
    + cbn [Re.run] in Hlazy. destruct t as [|y t]; [discriminate|].
      destruct (y =? Py.newline)%N; [discriminate|].
      destruct (IH t Hlazy) as (w & t' & -> & Hend).
      now exists (y :: w), t'.
Qed.

Lemma greedy_marker_inv {R} (k : str -> option str -> option R) (c : N)
    (s : str) (g : option str) (x : R) :
  Re.run (Re.Repeat 1 2 (Re.Chr c)) s g k = Some x ->
  exists s', k s' g = Some x /\ length s' < length s.
Proof.
  cbn [Re.run Re.greedy Nat.pred Nat.eqb]. intros Hrun.
  destruct s as [|y s1]; [discriminate|].
  destruct (y =? c)%N; [|discriminate].
  destruct s1 as [|y2 s2].
  - destruct (k [] g) eqn:Hk; [|discriminate].
    exists []. split; [congruence|cbn [length]; lia].
  - destruct (y2 =? c)%N.
    + destruct (k s2 g) eqn:Hk2.
      * exists s2. split; [congruence|cbn [length]; lia].
      * destruct (k (y2 :: s2) g) eqn:Hk1; [|discriminate].
        exists (y2 :: s2). split; [congruence|cbn [length]; lia].
    + destruct (k (y2 :: s2) g) eqn:Hk1; [|discriminate].
      exists (y2 :: s2). split; [congruence|cbn [length]; lia].
Qed.

(** A match of an emphasis pattern consumes at least two characters more
    than the text of its group. *)
Lemma match_at_emphasis_shrinks (c : N) (s s' : str) (g : option str) :
  Re.match_at (SimpleTTS.emphasis c) s = Some (s', g) ->
  length (Re.group1 g) + length s' < length s.
Proof.
  unfold Re.match_at, SimpleTTS.emphasis. rewrite run_seq. intros Hrun.
  apply greedy_marker_inv in Hrun as (s1 & Hrun & Hlen1).
  rewrite run_seq in Hrun. cbn [Re.run] in Hrun.
  apply lazy_any_inv in Hrun as (w & t' & -> & Hrun).
  rewrite length_app, Nat.add_sub, take_app_length in Hrun.
  apply (greedy_marker_inv _ c t') in Hrun as (s2 & Hend & Hlen2).
  injection Hend as <- <-. cbn [Re.group1 default id].
  rewrite length_app in Hlen1. lia.
Qed.

Section Suffix.

Context {R : Type}.

Lemma greedy_suffix
    (step : str -> option str -> (str -> option str -> option R) -> option R)
    (k : str -> option str -> option R) :
  (forall s g K x, step s g K = Some x ->
     exists s' g', K s' g' = Some x /\ length s' <= length s) ->
  forall hi lo s g x, Re.greedy step k lo hi s g = Some x ->
    exists s' g', k s' g' = Some x /\ length s' <= length s.
Proof.
  intros Hstep. induction hi as [|hi IH]; intros lo s g x Hrun;
    cbn [Re.greedy] in Hrun.
  - destruct (lo =? 0); [|discriminate]. now exists s, g.
  - destruct (step s g (Re.greedy step k (pred lo) hi)) eqn:Hs.
    + injection Hrun as ->.
      apply Hstep in Hs as (s1 & g1 & Hs & Hlen1).
      apply IH in Hs as (s2 & g2 & Hk & Hlen2).
      exists s2, g2. split; [exact Hk|lia].
    + destruct (lo =? 0); [|discriminate]. now exists s, g.
Qed.

Lemma lazy_suffix
    (step : str -> option str -> (str -> option str -> option R) -> option R)
    (k : str -> option str -> option R) :
  (forall s g K x, step s g K = Some x ->
     exists s' g', K s' g' = Some x /\ length s' <= length s) ->
  forall fuel s g x, Re.lazy step k fuel s g = Some x ->
    exists s' g', k s' g' = Some x /\ length s' <= length s.
Proof.
  intros Hstep. induction fuel as [|fuel IH]; intros s g x Hrun;
    cbn [Re.lazy] in Hrun.
  - destruct (k s g) eqn:Hk; [|discriminate].
    injection Hrun as ->. now exists s, g.
  - destruct (k s g) eqn:Hk.
    + injection Hrun as ->. now exists s, g.
    + apply Hstep in Hrun as (s1 & g1 & Hs & Hlen1).
      apply IH in Hs as (s2 & g2 & Hk2 & Hlen2).
      exists s2, g2. split; [exact Hk2|lia].
Qed.

(** The continuation of a match is called on a suffix: the rest is never
    longer than the text. *)
Lemma run_suffix (r : Re.regex) :
  forall (s : str) (g : option str) (k : str -> option str -> option R)
         (x : R),
    Re.run r s g k = Some x ->
    exists s' g', k s' g' = Some x /\ length s' <= length s.
Proof.
  induction r as [c| |r1 IH1 r2 IH2|lo hi r1 IH1|r1 IH1|r1 IH1];
    intros s g k x Hrun; cbn [Re.run] in Hrun.
  - destruct s as [|y s]; [discriminate|].
    destruct (y =? c)%N; [|discriminate].
    exists s, g. split; [exact Hrun|cbn [length]; lia].
  - destruct s as [|y s]; [discriminate|].
    destruct (y =? Py.newline)%N; [discriminate|].
    exists s, g. split; [exact Hrun|cbn [length]; lia].
  - apply IH1 in Hrun as (s1 & g1 & Hrun & Hlen1).
    apply IH2 in Hrun as (s2 & g2 & Hk & Hlen2).
    exists s2, g2. split; [exact Hk|lia].
  - apply greedy_suffix in Hrun; [exact Hrun|].
    intros s0 g0 K x0. apply IH1.
  - apply lazy_suffix in Hrun; [exact Hrun|].
    intros s0 g0 K x0. apply IH1.
  - apply IH1 in Hrun as (s1 & g1 & Hk & Hlen1).
    now exists s1, (Some (take (length s - length s1) s)).
Qed.

End Suffix.

(** A pattern that begins with a literal character consumes it. *)
Lemma match_at_literal_shrinks (c : N) (r : Re.regex) (s s' : str)
    (g : option str) :
  Re.match_at (Re.Seq (Re.Chr c) r) s = Some (s', g) ->
  length s' < length s.
Proof.
  unfold Re.match_at. rewrite run_seq. cbn [Re.run]. intros Hrun.
  destruct s as [|y s]; [discriminate|].
  destruct (y =? c)%N; [|discriminate].
  apply run_suffix in Hrun as (s1 & g1 & Hend & Hlen).
  injection Hend as <- <-. cbn [length]. lia.
Qed.

(** *** A substitution that changes the text makes it shorter *)

Section Shrink.

Variable r : Re.regex.
Variable repl : option str -> str.
Hypothesis match_shrinks :
  forall s s' g, Re.match_at r s = Some (s', g) ->
    length (repl g) + length s' < length s.

Lemma sub_from_shrinks (fuel : nat) (s : str) :
  Re.sub_from fuel r repl s = s
  \/ length (Re.sub_from fuel r repl s) < length s.
Proof.
  revert s. induction fuel as [|fuel IH]; intros s; [now left|].
  cbn [Re.sub_from].
  assert (Hcopy : Re.copy_char (Re.sub_from fuel r repl) s = s
                  \/ length (Re.copy_char (Re.sub_from fuel r repl) s)
                     < length s).
  { destruct s as [|y s]; [now left|]. cbn [Re.copy_char length].
    destruct (IH s) as [->|Hlt]; [now left|right; lia]. }
  destruct (Re.match_at r s) as [[s' g]|] eqn:Hmatch; [|exact Hcopy].
  pose proof (match_shrinks s s' g Hmatch) as Hlen.
  assert (Hlt : (length s' <? length s) = true) by (apply Nat.ltb_lt; lia).
  rewrite Hlt. right. rewrite length_app.
  destruct (IH s') as [->|Hshort]; lia.
Qed.

Lemma sub_shrinks (s : str) :
  Re.sub r repl s = s \/ length (Re.sub r repl s) < length s.
Proof. apply sub_from_shrinks. Qed.

End Shrink.

Lemma remove_markup_shrinks (s : str) :
  remove_markup s = s \/ length (remove_markup s) < length s.
Proof.
  unfold remove_markup.
  pose proof (sub_shrinks (SimpleTTS.emphasis SimpleTTS.star) Re.group1
                (match_at_emphasis_shrinks SimpleTTS.star) s) as H1.
  set (s1 := Re.sub (SimpleTTS.emphasis SimpleTTS.star) Re.group1 s) in *.
  pose proof (sub_shrinks (SimpleTTS.emphasis SimpleTTS.underscore) Re.group1
                (match_at_emphasis_shrinks SimpleTTS.underscore) s1) as H2.
  set (s2 := Re.sub (SimpleTTS.emphasis SimpleTTS.underscore) Re.group1 s1)
    in *.
  assert (H3 : Re.sub SimpleTTS.link Re.nothing s2 = s2
               \/ length (Re.sub SimpleTTS.link Re.nothing s2) < length s2).
  { apply sub_shrinks. intros t t' g Hm.
    apply match_at_literal_shrinks in Hm. cbn [Re.nothing length]. lia. }
  set (s3 := Re.sub SimpleTTS.link Re.nothing s2) in *.
  assert (H4 : Re.sub SimpleTTS.code Re.nothing s3 = s3
               \/ length (Re.sub SimpleTTS.code Re.nothing s3) < length s3).
  { apply sub_shrinks. intros t t' g Hm.
    apply match_at_literal_shrinks in Hm. cbn [Re.nothing length]. lia. }
  set (s4 := Re.sub SimpleTTS.code Re.nothing s3) in *.
  destruct H1 as [E1|L1]; destruct H2 as [E2|L2]; destruct H3 as [E3|L3];
    destruct H4 as [E4|L4];
    try (left; congruence);
    right; rewrite ?E4, ?E3, ?E2, ?E1 in *; lia.
Qed.

Lemma split_from_length (s cur : str) :
  length (Py.join [Py.space] (Py.split_from cur s))
  <= length cur + length s.
Proof.
  revert cur. induction s as [|c s IH]; intros cur.
  - destruct cur; cbn [Py.split_from Py.join length]; lia.
  - rewrite split_from_cons. destruct (Py.isspace c).
    + specialize (IH []). cbn [length] in *.
      destruct cur as [|x cur]; [lia|].
      destruct (Py.split_from [] s) as [|w ws].
      * cbn [Py.join length]. lia.
      * rewrite join_cons2, !length_app. cbn [length] in *. lia.
    + specialize (IH (cur ++ [c])). rewrite length_app in IH.
      cbn [length] in *. lia.
Qed.

Lemma clean_text_length (s : str) :
  length (SimpleTTS.clean_text s) <= length (remove_markup s).
Proof.
  rewrite clean_text_truncate, truncate_length.
  pose proof (split_from_length (remove_markup s) []) as Hn.
  fold (Py.split (remove_markup s)) in Hn.
  fold (normalise (remove_markup s)) in Hn. cbn [length] in Hn.
  destruct (500 <? length (normalise (remove_markup s))) eqn:Hlen; [|lia].
  apply Nat.ltb_lt in Hlen. lia.
Qed.

(** C8 (amended): cleaning a cleaned text again returns it unchanged if and
    only if the four substitutions leave the cleaned text unchanged, that
    is, when no emphasis span, link or code span is left for a pattern to
    match; the cut at 500 characters plays no part. *)
Theorem clean_text_idempotent_iff (text : str) :
  SimpleTTS.clean_text (SimpleTTS.clean_text text)
  = SimpleTTS.clean_text text
  <-> remove_markup (SimpleTTS.clean_text text) = SimpleTTS.clean_text text.
Proof.
  set (cleaned := SimpleTTS.clean_text text). split.
  - intros Hsame.
    destruct (remove_markup_shrinks cleaned) as [Hkeep|Hshort];
      [exact Hkeep|].
    pose proof (clean_text_length cleaned) as Hlen.
    rewrite Hsame in Hlen. lia.
  - intros Hkeep. rewrite clean_text_truncate, Hkeep.
    destruct (clean_text_shape text) as [Hshape Hlen].
    fold cleaned in Hshape, Hlen.
    assert (Hnorm : normalise cleaned = cleaned).
    { destruct Hshape as [->|Hnormal]; [reflexivity|].
      now apply split_join_normal. }
    rewrite Hnorm. unfold truncate.
    apply Nat.ltb_ge in Hlen. now rewrite Hlen.
Qed.

(** A text that keeps an asterisk, an underscore and brackets: no pattern
    matches in the cleaned text, and cleaning it again changes nothing. *)
Lemma clean_text_idempotent_iff_witness :
  SimpleTTS.clean_text
    (Py.lit "use  snake_case and a[0] [laughs]: 2 * 3 = 6 ")
  = Py.lit "use snake_case and a[0] [laughs]: 2 * 3 = 6"
  /\ markup_free
       (SimpleTTS.clean_text
          (Py.lit "use  snake_case and a[0] [laughs]: 2 * 3 = 6 ")) = false
  /\ SimpleTTS.clean_text
       (SimpleTTS.clean_text
          (Py.lit "use  snake_case and a[0] [laughs]: 2 * 3 = 6 "))
     = SimpleTTS.clean_text
         (Py.lit "use  snake_case and a[0] [laughs]: 2 * 3 = 6 ").
Proof.
  split; [vm_compute; reflexivity|]. split; [vm_compute; reflexivity|].
  apply (clean_text_idempotent_iff
           (Py.lit "use  snake_case and a[0] [laughs]: 2 * 3 = 6 ")).
  vm_compute. reflexivity.
Defined.
